(** * ransom_live_pull: filtering, date normalisation and CSV projection

    A shallow embedding of [pull.py] (the ransomware.live "recent victims"
    exporter) and the properties of its record pipeline.

    Conventions of the embedding.
    - A Python [str] is the list of its code points ([pystr]); the keys a
      record is read by are ASCII literals of the program and are kept as
      [string].
    - A decoded JSON value is a [json]; a raw record and a flattened row are
      finite maps from keys to values.
    - An exception is a [Raise] in the [result] monad; [try]/[except] is a
      match on it.
    - A datetime carrying [tzinfo=timezone.utc] is its number of microseconds
      since 0001-01-01T00:00:00 UTC ([utc_time]).
    - What the program takes from the Python runtime and cannot be written
      down in a few lines ([str.upper], [repr] of strings and floats,
      [datetime.fromisoformat], [datetime.strptime]) is the interface
      [PyRuntime]; every theorem holds for every implementation of it.
    - [main] is followed from the cutoff to the rows handed to the CSV
      writer ([main]) and on to the text the file holds ([main_file]); the
      HTTP fetch, the command line, the time zone of the default file name
      and the file system are outside. *)

From Stdlib Require Import ZArith NArith Ascii String List Lia.
From Stdlib Require Import DecimalString SpecFloat.
From Stdlib Require Import Sorting.Permutation Sorting.Sorted.
From stdpp Require Import base option list gmap strings.

Local Open Scope Z_scope.

(** ** Python strings *)

Abbreviation pystr := (list N).

(** An ASCII literal of the program as a Python string. *)
Definition lit (s : string) : pystr :=
  map N_of_ascii (list_ascii_of_string s).

(** [Py_UNICODE_ISSPACE]: the code points [str.strip()] removes. *)
Definition is_space (c : N) : bool :=
  ((9 <=? c) && (c <=? 13) || (28 <=? c) && (c <=? 32)
   || (c =? 133) || (c =? 160) || (c =? 5760)
   || (8192 <=? c) && (c <=? 8202)
   || (c =? 8232) || (c =? 8233) || (c =? 8239) || (c =? 8287)
   || (c =? 12288))%N.

Fixpoint lstrip_of (p : N -> bool) (s : pystr) : pystr :=
  match s with
  | [] => []
  | c :: t => if p c then lstrip_of p t else s
  end.

Fixpoint rstrip_of (p : N -> bool) (s : pystr) : pystr :=
  match s with
  | [] => []
  | c :: t =>
      match rstrip_of p t with
      | [] => if p c then [] else [c]
      | t' => c :: t'
      end
  end.

(** [s.strip()] *)
Definition str_strip (s : pystr) : pystr := rstrip_of is_space (lstrip_of is_space s).

(** [s.rstrip(chars)] *)
Definition str_rstrip (chars s : pystr) : pystr :=
  rstrip_of (fun c => bool_decide (c ∈ chars)) s.

(** [s.endswith(suf)] *)
Definition str_endswith (s suf : pystr) : bool :=
  bool_decide (drop (length s - length suf)%nat s = suf).

(** [s[:-1]] *)
Definition str_drop_last (s : pystr) : pystr := take (length s - 1)%nat s.

(** [s.split(sep)] for a separator of one character. *)
Fixpoint str_split (sep : N) (s : pystr) : list pystr :=
  match s with
  | [] => [[]]
  | c :: t =>
      if (c =? sep)%N then [] :: str_split sep t
      else match str_split sep t with
           | [] => [[c]]
           | seg :: segs => (c :: seg) :: segs
           end
  end.

(** [sep.join(l)] *)
Fixpoint str_join (sep : pystr) (l : list pystr) : pystr :=
  match l with
  | [] => []
  | [x] => x
  | x :: t => x ++ sep ++ str_join sep t
  end.

Definition SLASH : N := 47.
Definition PIPE : N := 124.

(** ** Exceptions *)

Inductive exn := AttributeError | TypeError | ValueError | OverflowError | IndexError.

Inductive result (A : Type) :=
| Ok (a : A)
| Raise (e : exn).
Arguments Ok {A} a.
Arguments Raise {A} e.

#[global] Instance result_ret : MRet result := fun _ a => Ok a.
#[global] Instance result_bind : MBind result := fun _ _ f m =>
  match m with
  | Ok a => f a
  | Raise e => Raise e
  end.

#[global] Instance result_fmap : FMap result := fun _ _ f m =>
  match m with
  | Ok a => Ok (f a)
  | Raise e => Raise e
  end.

Definition is_Ok {A} (r : result A) : Prop := exists a, r = Ok a.

(** ** JSON values, as [json.loads] builds them

    A number is an [int] or a [float]; an object nested in a record keeps
    its entries in insertion order (the order [str] prints them in), one
    entry per key. *)

#[warnings="-register-all"]
Inductive json :=
| JNull
| JBool (b : bool)
| JInt (n : Z)
| JFloat (f : spec_float)
| JStr (s : pystr)
| JList (l : list json)
| JDict (d : list (pystr * json)).

(** A raw incident record ([rec]) and an export row ([out]). *)
Abbreviation record := (gmap string json).
Abbreviation row := (gmap string json).

(** [bool(v)] *)
Definition truthy (v : json) : bool :=
  match v with
  | JNull => false
  | JBool b => b
  | JInt n => negb (n =? 0)
  | JFloat f => match f with S754_zero _ => false | _ => true end
  | JStr s => match s with [] => false | _ => true end
  | JList l => match l with [] => false | _ => true end
  | JDict d => match d with [] => false | _ => true end
  end.

(** [x or y] *)
Definition py_or (x y : json) : json := if truthy x then x else y.

(** [rec.get(k, dflt)]; [rec.get(k)] is [dict_get rec k JNull]. *)
Definition dict_get (rec : record) (k : string) (dflt : json) : json :=
  default dflt (rec !! k).

(** [len(v)] *)
Definition py_len (v : json) : result Z :=
  match v with
  | JStr s => Ok (Z.of_nat (length s))
  | JList l => Ok (Z.of_nat (length l))
  | JDict d => Ok (Z.of_nat (length d))
  | JNull | JBool _ | JInt _ | JFloat _ => Raise TypeError
  end.

(** [[p for p in press if isinstance(p, str)]] *)
Fixpoint str_items (l : list json) : list pystr :=
  match l with
  | [] => []
  | JStr s :: t => s :: str_items t
  | _ :: t => str_items t
  end.

(** ** Datetimes *)

(** What [fromisoformat] and [strptime] return: the wall-clock fields as
    microseconds since 0001-01-01T00:00:00, and the UTC offset of the
    [tzinfo] in microseconds ([None] for a naive datetime). *)
Record datetime := { dt_naive : Z; dt_tz : option Z }.

Abbreviation utc_time := Z.

Definition US_PER_DAY : Z := 86400000000.

(** [datetime.max.replace(tzinfo=timezone.utc)]: 9999-12-31T23:59:59.999999. *)
Definition DATETIME_MAX : utc_time := 3652059 * US_PER_DAY - 1.

Definition in_datetime_range (t : Z) : bool := (0 <=? t) && (t <=? DATETIME_MAX).

(** [dt.replace(tzinfo=timezone.utc)] *)
Definition replace_utc (dt : datetime) : utc_time := dt_naive dt.

(** [dt.astimezone(timezone.utc)] for an aware [dt]: the offset is
    subtracted; a result outside year 1..9999 is an [OverflowError]. *)
Definition astimezone_utc (dt : datetime) (off : Z) : result utc_time :=
  let t := dt_naive dt - off in
  if in_datetime_range t then Ok t else Raise OverflowError.

(** The three [strptime] formats of [parse_date], in the order tried. *)
Definition fmts : list pystr :=
  [lit "%Y-%m-%d %H:%M:%S.%f"; lit "%Y-%m-%d %H:%M:%S"; lit "%Y-%m-%d"].

(** ** The Python runtime the program calls into *)

Class PyRuntime := {
  (** [str.upper] *)
  str_upper : pystr -> pystr;
  str_upper_empty : str_upper [] = [];
  (** [repr] of a [str] and of a [float] *)
  str_repr : pystr -> pystr;
  float_repr : spec_float -> pystr;
  (** [datetime.fromisoformat]; [None] is its [ValueError] *)
  fromisoformat : pystr -> option datetime;
  (** [datetime.strptime(s, fmt)]; [None] is its [ValueError] *)
  strptime : pystr -> pystr -> option datetime;
  (** a datetime lies between [datetime.min] and [datetime.max] *)
  fromisoformat_range : forall s dt,
    fromisoformat s = Some dt -> 0 <= dt_naive dt <= DATETIME_MAX;
  strptime_range : forall s f dt,
    strptime s f = Some dt -> 0 <= dt_naive dt <= DATETIME_MAX;
  (** the empty string is no date *)
  fromisoformat_empty : fromisoformat [] = None;
  strptime_empty : forall f, f ∈ fmts -> strptime [] f = None
}.

(** ** The program *)

Section Program.
Context `{RT : PyRuntime}.

(** [repr(v)] and [str(v)] of a decoded JSON value. *)
Definition int_repr (n : Z) : pystr := lit (NilZero.string_of_int (Z.to_int n)).

Fixpoint py_repr (v : json) : pystr :=
  match v with
  | JNull => lit "None"
  | JBool true => lit "True"
  | JBool false => lit "False"
  | JInt n => int_repr n
  | JFloat f => float_repr f
  | JStr s => str_repr s
  | JList l => lit "[" ++ str_join (lit ", ") (map py_repr l) ++ lit "]"
  | JDict d =>
      lit "{"
      ++ str_join (lit ", ")
           (map (fun kv => str_repr (fst kv) ++ lit ": " ++ py_repr (snd kv)) d)
      ++ lit "}"
  end.

Definition py_str (v : json) : pystr :=
  match v with
  | JStr s => s
  | _ => py_repr v
  end.

Definition CSV_FIELDS : list string :=
  ["id_base64"; "victim"; "domain"; "country"; "group"; "activity";
   "attackdate"; "discovered"; "description"; "claim_url"; "detail_url";
   "screenshot_url"; "press_urls"; "duplicates_count"]%string.

(** *** [parse_date] *)

(** The body of the first [try]: the string is the one already stripped and
    with its final "Z" replaced. *)
Definition iso_attempt (s : pystr) : result utc_time :=
  match fromisoformat s with
  | None => Raise ValueError
  | Some dt =>
      match dt_tz dt with
      | None => Ok (replace_utc dt)
      | Some off => astimezone_utc dt off
      end
  end.

(** The [for f in fmts] loop. *)
Fixpoint strptime_loop (s : pystr) (fs : list pystr) : option utc_time :=
  match fs with
  | [] => None
  | f :: rest =>
      match strptime s f with
      | Some dt => Some (replace_utc dt)
      | None => strptime_loop s rest
      end
  end.

(** [s] after [s = s.strip()] and the replacement of a final "Z". *)
Definition normalized_text (s : pystr) : pystr :=
  let s := str_strip s in
  if str_endswith s (lit "Z") then str_drop_last s ++ lit "+00:00" else s.

Definition parse_date (s : json) : result (option utc_time) :=
  if negb (truthy s) then Ok None
  else
    match s with
    | JStr s =>
        let s := normalized_text s in
        match iso_attempt s with
        | Ok t => Ok (Some t)
        | Raise _ => Ok (strptime_loop s fmts)
        end
    | _ => Raise AttributeError
    end.

(** *** [extract_id_from_detail_url] *)

(** [l[-1]] *)
Definition list_last_item (l : list pystr) : result pystr :=
  match last l with
  | Some x => Ok x
  | None => Raise IndexError
  end.

(** The expression inside the [try]. *)
Definition url_last_segment (url : json) : result pystr :=
  match url with
  | JStr u => list_last_item (str_split SLASH (str_rstrip (lit "/") u))
  | _ => Raise AttributeError
  end.

Definition extract_id_from_detail_url (url : json) : pystr :=
  if negb (truthy url) then []
  else
    match url_last_segment url with
    | Ok s => s
    | Raise _ => []
    end.

(** *** [flatten_record] *)

Definition EMPTY : json := JStr [].

Definition press_urls (press : json) : pystr :=
  match press with
  | JNull => []
  | JList l => str_join (lit "|") (str_items l)
  | _ => py_str press
  end.

Definition flatten_record (rec : record) : result row :=
  let out : row := ∅ in
  let out := <["id_base64" := JStr (extract_id_from_detail_url
                                      (py_or (dict_get rec "url" EMPTY) EMPTY))]> out in
  let out := <["victim" := py_or (dict_get rec "victim" JNull) EMPTY]> out in
  let out := <["domain" := py_or (dict_get rec "domain" JNull) EMPTY]> out in
  let out := <["country" := py_or (dict_get rec "country" JNull) EMPTY]> out in
  let out := <["group" := py_or (dict_get rec "group" JNull) EMPTY]> out in
  let out := <["activity" := py_or (dict_get rec "activity" JNull) EMPTY]> out in
  let out := <["attackdate" := py_or (dict_get rec "attackdate" JNull) EMPTY]> out in
  let out := <["discovered" := py_or (dict_get rec "discovered" JNull) EMPTY]> out in
  let out := <["description" := py_or (dict_get rec "description" JNull) EMPTY]> out in
  let out := <["claim_url" := py_or (dict_get rec "claim_url" JNull) EMPTY]> out in
  let out := <["detail_url" := py_or (dict_get rec "url" JNull) EMPTY]> out in
  let out := <["screenshot_url" := py_or (dict_get rec "screenshot" JNull) EMPTY]> out in
  let out := <["press_urls" := JStr (press_urls (dict_get rec "press" JNull))]> out in
  n ← py_len (py_or (dict_get rec "duplicates" (JList [])) (JList []));
  mret (<["duplicates_count" := JInt n]> out).

(** *** The filter loop of [main] *)

Definition US_NAMES : list pystr := [lit "US"; lit "UNITED STATES"; lit "USA"].

(** [(rec.get("country") or "").upper()] *)
Definition country_upper (rec : record) : result pystr :=
  match py_or (dict_get rec "country" JNull) EMPTY with
  | JStr s => Ok (str_upper s)
  | _ => Raise AttributeError
  end.

(** [rec.get("discovered") or rec.get("attackdate") or rec.get("date")] *)
Definition date_s (rec : record) : json :=
  py_or (py_or (dict_get rec "discovered" JNull) (dict_get rec "attackdate" JNull))
        (dict_get rec "date" JNull).

(** One turn of the loop: [true] when the record is appended, [false] when
    one of the three [continue]s is taken. *)
Definition keep (cutoff : utc_time) (rec : record) : result bool :=
  country ← country_upper rec;
  if negb (bool_decide (country ∈ US_NAMES)) then mret false
  else
    dt ← parse_date (date_s rec);
    match dt with
    | None => mret false
    | Some dt => if dt <? cutoff then mret false else mret true
    end.

Fixpoint filter_loop (cutoff : utc_time) (recs filtered : list record)
  : result (list record) :=
  match recs with
  | [] => mret filtered
  | rec :: rest =>
      b ← keep cutoff rec;
      filter_loop cutoff rest (if b : bool then filtered ++ [rec] else filtered)
  end.

(** *** The sort *)

(** The [key] of [filtered.sort]. *)
Definition sort_key (r : record) : result utc_time :=
  dt ← parse_date (py_or (py_or (dict_get r "discovered" JNull)
                                (dict_get r "attackdate" JNull)) EMPTY);
  mret (default DATETIME_MAX dt).

(** [list.sort(key=...)] computes every key once, orders the (key, item)
    pairs by [<] on the keys and keeps the items; it is stable.  A stable
    insertion sort stands for it. *)
Fixpoint insert_keyed (x : utc_time * record) (l : list (utc_time * record))
  : list (utc_time * record) :=
  match l with
  | [] => [x]
  | y :: t => if fst y <? fst x then y :: insert_keyed x t else x :: l
  end.

Definition sort_keyed (l : list (utc_time * record)) : list (utc_time * record) :=
  foldr insert_keyed [] l.

Definition sort_records (l : list record) : result (list record) :=
  keys ← mapM sort_key l;
  mret (map snd (sort_keyed (zip keys l))).

(** *** [main], from the cutoff to the rows handed to the CSV writer

    [main_filtered] is the list [filtered] after the sort; [main] adds the
    [flatten_record] of each of its records, the rows [writer.writerow]
    receives.  The writes themselves are followed by [write_rows] and
    [main_file] below. *)

(** [datetime.now(timezone.utc) - timedelta(days=args.days)] *)
Definition cutoff_of (now : utc_time) (days : Z) : result utc_time :=
  if 999999999 <? Z.abs days then Raise OverflowError
  else
    let t := now - days * US_PER_DAY in
    if in_datetime_range t then Ok t else Raise OverflowError.

(** The list [filtered] after the sort. *)
Definition main_filtered (now : utc_time) (days : Z) (recs : list record)
  : result (list record) :=
  cutoff ← cutoff_of now days;
  filtered ← filter_loop cutoff recs [];
  sort_records filtered.

Definition main (now : utc_time) (days : Z) (recs : list record)
  : result (list row) :=
  filtered ← main_filtered now days recs;
  mapM flatten_record filtered.

End Program.


(** ** The specification's own wording, for comparison with the code *)

(** "after stripping a trailing slash" *)
Definition strip_trailing_slash (u : pystr) : pystr :=
  if str_endswith u (lit "/") then str_drop_last u else u.

(** "the last non-empty path segment", the empty string when there is none *)
Definition last_nonempty (segs : list pystr) : pystr :=
  default [] (last (filter (fun seg => seg ≠ []) segs)).

(** [id_base64] as the specification words it, from the record's [url]
    entry: absent, or not a text to take segments of, gives the empty
    string. *)
Definition id_of_url_spec (url : option json) : pystr :=
  match url with
  | Some (JStr u) => last_nonempty (str_split SLASH (strip_trailing_slash u))
  | _ => []
  end.

(** [press_urls] as the specification words it, from the record's [press]
    entry. *)
Definition press_urls_spec `{RT : PyRuntime} (press : option json) : pystr :=
  match press with
  | None | Some JNull => []
  | Some (JList l) =>
      str_join [PIPE] (omap (fun v => match v with JStr s => Some s | _ => None end) l)
  | Some v => py_str v
  end.

(** The columns that pass a source field through, with the field read. *)
Definition PASSTHROUGH : list (string * string) :=
  [("victim", "victim"); ("domain", "domain"); ("country", "country");
   ("group", "group"); ("activity", "activity"); ("attackdate", "attackdate");
   ("discovered", "discovered"); ("description", "description");
   ("claim_url", "claim_url"); ("detail_url", "url");
   ("screenshot_url", "screenshot")]%string.

(** The values [len] accepts. *)
Definition has_len (v : json) : bool :=
  match v with
  | JStr _ | JList _ | JDict _ => true
  | _ => false
  end.

(** The value [len] is applied to in [flatten_record]. *)
Definition duplicates_arg (rec : record) : json :=
  py_or (dict_get rec "duplicates" (JList [])) (JList []).

(** The Date Normalizer as the specification words it: an optional string
    goes through an ordered list of attempts, the first success wins;
    absent, empty and whitespace-only inputs give "none". *)
Definition first_success {A} (l : list (option A)) : option A :=
  foldr (fun a rest => match a with Some x => Some x | None => rest end) None l.

Definition attempts `{RT : PyRuntime} (s : pystr) : list (option utc_time) :=
  [ match iso_attempt s with Ok t => Some t | Raise _ => None end;
    replace_utc <$> strptime s (lit "%Y-%m-%d %H:%M:%S.%f");
    replace_utc <$> strptime s (lit "%Y-%m-%d %H:%M:%S");
    replace_utc <$> strptime s (lit "%Y-%m-%d") ].

Definition parse_date_spec `{RT : PyRuntime} (s : option pystr) : option utc_time :=
  match s with
  | None => None
  | Some s =>
      if forallb is_space s then None
      else first_success (attempts (normalized_text s))
  end.

(** An optional string as the value [parse_date] receives. *)
Definition of_optional (s : option pystr) : json :=
  match s with
  | None => JNull
  | Some s => JStr s
  end.

(** The reference date as the specification words it: the first of
    [discovered], [attackdate], [date] that holds a value, normalized; no
    date when none of them does. *)
Definition reference_date_spec `{RT : PyRuntime} (rec : record)
  : result (option utc_time) :=
  match
    List.find truthy [dict_get rec "discovered" JNull;
                      dict_get rec "attackdate" JNull;
                      dict_get rec "date" JNull]
  with
  | Some v => parse_date v
  | None => Ok None
  end.

(** The sort key as the specification words it: the normalized date of
    [discovered], else of [attackdate]; "end of time" when there is none or
    it does not parse. *)
Definition sort_key_spec `{RT : PyRuntime} (rec : record) : result utc_time :=
  match
    List.find truthy [dict_get rec "discovered" JNull;
                      dict_get rec "attackdate" JNull]
  with
  | Some v => dt ← parse_date v; mret (default DATETIME_MAX dt)
  | None => Ok DATETIME_MAX
  end.

(** The key of a record whose [sort_key] does not raise. *)
Definition key_of `{RT : PyRuntime} (rec : record) : utc_time :=
  match sort_key rec with
  | Ok k => k
  | Raise _ => DATETIME_MAX
  end.

(** The loop's verdict on a record as a boolean. *)
Definition kept `{RT : PyRuntime} (cutoff : utc_time) (rec : record) : bool :=
  match keep cutoff rec with
  | Ok b => b
  | Raise _ => false
  end.

(** Ascending order of (key, record) pairs and of records. *)
Definition keyed_le (a b : utc_time * record) : Prop := fst a <= fst b.

Definition key_le `{RT : PyRuntime} (a b : record) : Prop := key_of a <= key_of b.

(** The (key, record) pairs [list.sort] works on. *)
Definition decorate `{RT : PyRuntime} (l : list record) : list (utc_time * record) :=
  map (fun r => (key_of r, r)) l.

(** A pair that carries the key of its record. *)
Definition well_keyed `{RT : PyRuntime} (p : utc_time * record) : Prop :=
  fst p = key_of (snd p).

(** A field as the upstream API sends it where the program expects text: a
    string, or something falsy ([null], absent, empty). *)
Definition text_or_falsy (v : json) : bool :=
  match v with
  | JStr _ => true
  | _ => negb (truthy v)
  end.

(** ** Sample records *)

Definition sample (country : string) (fields : list (string * string)) : record :=
  <["country" := JStr (lit country)]>
    (list_to_map (map (fun kv => (fst kv, JStr (lit (snd kv)))) fields)).

(** 2025-01-01T00:00:00Z and 2025-01-02T00:00:00Z *)
Definition JAN_1 : utc_time := 63871286400000000.
Definition JAN_2 : utc_time := 63871372800000000.

Definition r_jan3 : record := sample "US" [("discovered", "2025-01-03T00:00:00Z")].
Definition r_date_only : record := sample "usa" [("date", "2025-01-02")].
Definition r_jan1 : record := sample "United States" [("discovered", "2025-01-01")].
Definition r_jan3_attack : record :=
  sample "us" [("attackdate", "2025-01-03 00:00:00"); ("date", "2025-01-01")].

(** The keys [flatten_record] reads. *)
Definition SOURCE_KEYS : list string :=
  ["url"; "victim"; "domain"; "country"; "group"; "activity"; "attackdate";
   "discovered"; "description"; "claim_url"; "screenshot"; "press";
   "duplicates"]%string.

(** Whether a computation returned. *)
Definition returned {A} (r : result A) : bool :=
  match r with
  | Ok _ => true
  | Raise _ => false
  end.

(** 2025-01-04T00:00:00Z *)
Definition JAN_4 : utc_time := JAN_2 + 2 * US_PER_DAY.

Definition r_bad_duplicates : record :=
  <["duplicates" := JInt 5]> (sample "US" [("discovered", "2025-01-03T12:00:00")]).

(** ** The rest of [main]: the output path and the CSV file *)

(** [s.startswith(pre)] *)
Definition str_startswith (s pre : pystr) : bool :=
  bool_decide (take (length pre) s = pre).

(** [os.path.join(a, b)] on a POSIX system. *)
Definition path_join (a b : pystr) : pystr :=
  if str_startswith b (lit "/") then b
  else if bool_decide (a = []) || str_endswith a (lit "/") then a ++ b
  else a ++ lit "/" ++ b.

(** [out_path]: [out] is [args.out] ([None] when the option is not given),
    [date_str] what [get_chicago_date_str()] returns. *)
Definition out_path (out_dir : pystr) (out : option pystr) (date_str : pystr) : pystr :=
  match out with
  | Some name =>
      if truthy (JStr name) then path_join out_dir name
      else path_join out_dir (lit "ransom_live_pull_" ++ date_str ++ lit ".csv")
  | None => path_join out_dir (lit "ransom_live_pull_" ++ date_str ++ lit ".csv")
  end.

(** *** [csv.writer] with the default ("excel") dialect

    The delimiter is the comma, the quote character the double quote
    (doubled inside a quoted field), the line terminator "\r\n"; quoting is
    minimal: a field is quoted when it holds one of these characters. *)
Definition COMMA : N := 44.
Definition QUOTE : N := 34.
Definition CR : N := 13.
Definition LF : N := 10.

Definition csv_special (c : N) : bool :=
  ((c =? COMMA) || (c =? QUOTE) || (c =? CR) || (c =? LF))%N.

Fixpoint csv_escape (s : pystr) : pystr :=
  match s with
  | [] => []
  | c :: t => if (c =? QUOTE)%N then QUOTE :: QUOTE :: csv_escape t else c :: csv_escape t
  end.

Definition csv_field (s : pystr) : pystr :=
  if existsb csv_special s then QUOTE :: csv_escape s ++ [QUOTE] else s.

(** One [writerow] of the underlying writer: a record that would be empty
    (one field, itself empty) is written as a quoted empty field. *)
Definition csv_record (fields : list pystr) : pystr :=
  let line := str_join [COMMA] (map csv_field fields) in
  (match line, fields with
   | [], _ :: _ => [QUOTE; QUOTE]
   | _, _ => line
   end) ++ [CR; LF].

Section Output.
Context `{RT : PyRuntime}.

(** The text of a cell: strings as they are, [None] as the empty string,
    anything else through [str]. *)
Definition csv_cell_text (v : json) : pystr :=
  match v with
  | JNull => []
  | _ => py_str v
  end.

(** [DictWriter._dict_to_list] with [extrasaction="ignore"]: the values of
    the field names in order, [restval] (the empty string) for a missing
    key. *)
Definition dict_to_list (r : row) : list json :=
  map (fun k => default EMPTY (r !! k)) CSV_FIELDS.

Definition row_cells (r : row) : list pystr := map csv_cell_text (dict_to_list r).

(** The text [writer.writerow(r)] hands to the file. *)
Definition writerow (r : row) : pystr := csv_record (row_cells r).

(** The text of [writer.writeheader()]. *)
Definition header_cells : list pystr := map lit CSV_FIELDS.

Definition writeheader : pystr := csv_record header_cells.

(** A write to the file opened with [encoding="utf-8"]: the text is encoded
    at once, and a surrogate code point is refused with a
    [UnicodeEncodeError] (a [ValueError]); nothing of that text is written
    then. *)
Definition is_surrogate (c : N) : bool := ((55296 <=? c) && (c <=? 57343))%N.

Definition file_write (file text : pystr) : pystr * result unit :=
  if existsb is_surrogate text then (file, Raise ValueError)
  else (file ++ text, Ok tt).

(** The loop [for rec in filtered: writer.writerow(flatten_record(rec))],
    threading the content of the file. *)
Fixpoint write_rows (filtered : list record) (file : pystr) : pystr * result unit :=
  match filtered with
  | [] => (file, Ok tt)
  | rec :: rest =>
      match flatten_record rec with
      | Raise e => (file, Raise e)
      | Ok r =>
          match file_write file (writerow r) with
          | (file, Ok _) => write_rows rest file
          | (file, Raise e) => (file, Raise e)
          end
      end
  end.

(** How the record pipeline and the write loop end, once the records are
    fetched: with an exception of the cutoff, the filter or the sort, which
    come before the file is opened, or with the file opened (and truncated),
    holding [text] when the [with] block is left normally or by an
    exception.  The steps that depend on the machine ([fetch_recent],
    [os.makedirs], [get_chicago_date_str], [open]) are taken to have
    succeeded; their failures are not part of [outcome]. *)
Inductive outcome :=
| Aborted (e : exn)
| Written (text : pystr) (r : result unit).

Definition main_file (now : utc_time) (days : Z) (recs : list record) : outcome :=
  match main_filtered now days recs with
  | Raise e => Aborted e
  | Ok filtered =>
      match file_write [] writeheader with
      | (file, Ok _) => let '(file, r) := write_rows filtered file in Written file r
      | (file, Raise e) => Written file (Raise e)
      end
  end.

(** Whether the row of a record can be written to the file: its text holds
    no surrogate code point. *)
Definition encodable (rec : record) : bool :=
  match flatten_record rec with
  | Ok r => negb (existsb is_surrogate (writerow r))
  | Raise _ => true
  end.

End Output.

(** The name [main] joins to the output directory: the explicit one when it
    is given and not empty, else the dated one. *)
Definition chosen_name (out : option pystr) (date_str : pystr) : pystr :=
  match out with
  | Some (c :: name) => c :: name
  | _ => lit "ransom_live_pull_" ++ date_str ++ lit ".csv"
  end.

(** The components of a path: its non-empty "/"-separated pieces. *)
Definition path_components (path : pystr) : list pystr :=
  filter (fun seg => seg ≠ []) (str_split SLASH path).

(** *** A reader for the CSV text

    The usual reading of such a file (RFC 4180): fields separated by commas,
    records ended by "\r\n", a quoted field running to its closing quote
    with doubled quotes standing for one.  [cell] and [row] are the field
    and the record being read, newest first. *)
Inductive csv_state := FieldStart | InUnquoted | InQuoted | AfterQuote.

Fixpoint csv_scan (s : pystr) (st : csv_state) (cell : pystr)
    (row : list pystr) (rows : list (list pystr)) : option (list (list pystr)) :=
  match s with
  | [] =>
      match st, cell, row with
      | FieldStart, [], [] => Some (reverse rows)
      | _, _, _ => None
      end
  | c :: t =>
      match st with
      | InQuoted =>
          if (c =? QUOTE)%N then csv_scan t AfterQuote cell row rows
          else csv_scan t InQuoted (c :: cell) row rows
      | _ =>
          if (c =? COMMA)%N then csv_scan t FieldStart [] (reverse cell :: row) rows
          else if (c =? CR)%N then
            match t with
            | d :: t' =>
                if (d =? LF)%N
                then csv_scan t' FieldStart [] [] (reverse (reverse cell :: row) :: rows)
                else None
            | [] => None
            end
          else if (c =? LF)%N then None
          else if (c =? QUOTE)%N then
            match st with
            | FieldStart => csv_scan t InQuoted [] row rows
            | AfterQuote => csv_scan t InQuoted (QUOTE :: cell) row rows
            | _ => None
            end
          else
            match st with
            | AfterQuote => None
            | _ => csv_scan t InUnquoted (c :: cell) row rows
            end
      end
  end.

Definition csv_read (text : pystr) : option (list (list pystr)) :=
  csv_scan text FieldStart [] [] [].
(** ** A runtime to evaluate examples with

    [ref_runtime] implements the interface on a fragment: ASCII text, and
    zero-padded dates of the shapes named in [parse_date]
    ("2025-10-13", "2025-10-13 13:17:14", "2025-10-13T13:17:14.652100",
    each optionally followed by "+HH:MM" or "-HH:MM" for [fromisoformat]).
    On that fragment it returns what CPython returns; it is used for the
    concrete examples only. *)

Module Ref.

Definition upper_char (c : N) : N :=
  if ((97 <=? c) && (c <=? 122))%N then (c - 32)%N else c.

Definition upper (s : pystr) : pystr := map upper_char s.

(** [repr] of a string of printable ASCII without quotes or backslashes. *)
Definition repr_str (s : pystr) : pystr := lit "'" ++ s ++ lit "'".

(** [repr] of a float that is zero, infinite, NaN or a whole number. *)
Definition repr_float (f : spec_float) : pystr :=
  match f with
  | S754_zero false => lit "0.0"
  | S754_zero true => lit "-0.0"
  | S754_infinity false => lit "inf"
  | S754_infinity true => lit "-inf"
  | S754_nan => lit "nan"
  | S754_finite sg m e =>
      (if sg then lit "-" else [])
      ++ lit (NilZero.string_of_int (Z.to_int (Z.shiftl (Z.pos m) e)))
      ++ lit ".0"
  end.

Definition digit (c : N) : option Z :=
  if ((48 <=? c) && (c <=? 57))%N then Some (Z.of_N c - 48) else None.

Fixpoint digits (n : nat) (acc : Z) (s : pystr) : option (Z * pystr) :=
  match n, s with
  | O, _ => Some (acc, s)
  | S n', c :: t => d ← digit c; digits n' (10 * acc + d) t
  | S _, [] => None
  end.

Definition expect (c : N) (s : pystr) : option pystr :=
  match s with
  | c' :: t => if (c' =? c)%N then Some t else None
  | [] => None
  end.

Definition is_leap (y : Z) : bool :=
  (y mod 4 =? 0) && (negb (y mod 100 =? 0) || (y mod 400 =? 0)).

Definition days_in_month (y m : Z) : Z :=
  if m =? 2 then (if is_leap y then 29 else 28)
  else if (m =? 4) || (m =? 6) || (m =? 9) || (m =? 11) then 30 else 31.

Definition days_before_year (y : Z) : Z :=
  (y - 1) * 365 + (y - 1) / 4 - (y - 1) / 100 + (y - 1) / 400.

Definition days_before_month (y m : Z) : Z :=
  nth (Z.to_nat (m - 1)) [0; 31; 59; 90; 120; 151; 181; 212; 243; 273; 304; 334] 0
  + (if (2 <? m) && is_leap y then 1 else 0).

(** "YYYY-MM-DD": the days since 0001-01-01 and the rest of the text. *)
Definition date_part (s : pystr) : option (Z * pystr) :=
  '(y, s) ← digits 4 0 s;
  s ← expect 45 s;
  '(m, s) ← digits 2 0 s;
  s ← expect 45 s;
  '(d, s) ← digits 2 0 s;
  if (1 <=? y) && (1 <=? m) && (m <=? 12) && (1 <=? d) && (d <=? days_in_month y m)
  then Some (days_before_year y + days_before_month y m + d - 1, s)
  else None.

(** "HH:MM:SS": the seconds since midnight. *)
Definition clock_part (s : pystr) : option (Z * pystr) :=
  '(h, s) ← digits 2 0 s;
  s ← expect 58 s;
  '(mi, s) ← digits 2 0 s;
  s ← expect 58 s;
  '(sec, s) ← digits 2 0 s;
  if (h <=? 23) && (mi <=? 59) && (sec <=? 59)
  then Some (h * 3600 + mi * 60 + sec, s)
  else None.

(** ".ffffff" *)
Definition fraction_part (s : pystr) : option (Z * pystr) :=
  s ← expect 46 s; digits 6 0 s.

(** "+HH:MM" or "-HH:MM" up to the end: the offset in microseconds. *)
Definition offset_part (s : pystr) : option Z :=
  match s with
  | sg :: s =>
      '(h, s) ← digits 2 0 s;
      s ← expect 58 s;
      '(mi, s) ← digits 2 0 s;
      match s with
      | [] =>
          let off := (h * 3600 + mi * 60) * 1000000 in
          if negb ((h <=? 23) && (mi <=? 59)) then None
          else if (sg =? 43)%N then Some off
          else if (sg =? 45)%N then Some (- off)
          else None
      | _ => None
      end
  | [] => None
  end.

Definition checked (t : Z) (tz : option Z) : option datetime :=
  if in_datetime_range t then Some {| dt_naive := t; dt_tz := tz |} else None.

Definition fromisoformat (s : pystr) : option datetime :=
  '(d, s) ← date_part s;
  match s with
  | [] => checked (d * US_PER_DAY) None
  | _ :: s =>
      '(t, s) ← clock_part s;
      let '(us, s) := default (0, s) (fraction_part s) in
      let naive := d * US_PER_DAY + t * 1000000 + us in
      match s with
      | [] => checked naive None
      | _ => off ← offset_part s; checked naive (Some off)
      end
  end.

Definition strptime (s f : pystr) : option datetime :=
  if bool_decide (f = lit "%Y-%m-%d") then
    '(d, s) ← date_part s;
    match s with [] => checked (d * US_PER_DAY) None | _ => None end
  else if bool_decide (f = lit "%Y-%m-%d %H:%M:%S") then
    '(d, s) ← date_part s;
    s ← expect 32 s;
    '(t, s) ← clock_part s;
    match s with [] => checked (d * US_PER_DAY + t * 1000000) None | _ => None end
  else if bool_decide (f = lit "%Y-%m-%d %H:%M:%S.%f") then
    '(d, s) ← date_part s;
    s ← expect 32 s;
    '(t, s) ← clock_part s;
    '(us, s) ← fraction_part s;
    match s with [] => checked (d * US_PER_DAY + t * 1000000 + us) None | _ => None end
  else None.

Lemma checked_range t tz dt :
  checked t tz = Some dt -> 0 <= dt_naive dt <= DATETIME_MAX.
Proof.
  unfold checked, in_datetime_range.
  destruct (0 <=? t) eqn:H0; destruct (t <=? DATETIME_MAX) eqn:H1; simpl;
    intros [= <-]; simpl; lia.
Qed.

Lemma ref_fromisoformat_range s dt :
  fromisoformat s = Some dt -> 0 <= dt_naive dt <= DATETIME_MAX.
Proof.
  unfold fromisoformat. intros H.
  destruct (date_part s) as [[d s1]|]; simpl in H; [|discriminate].
  destruct s1 as [|c s1]; [by eapply checked_range|].
  destruct (clock_part s1) as [[t s2]|]; simpl in H; [|discriminate].
  destruct (default (0, s2) (fraction_part s2)) as [us s3].
  destruct s3 as [|c3 s3]; [by eapply checked_range|].
  destruct (offset_part (c3 :: s3)); simpl in H; [|discriminate].
  by eapply checked_range.
Qed.

Lemma ref_strptime_range s f dt :
  strptime s f = Some dt -> 0 <= dt_naive dt <= DATETIME_MAX.
Proof.
  unfold strptime. intros H.
  repeat case_bool_decide;
    repeat match type of H with
    | context [mbind _ ?o] => destruct o as [[? ?]|] eqn:?; simpl in H; [|discriminate]
    | context [mbind _ ?o] => destruct o eqn:?; simpl in H; [|discriminate]
    | context [match ?l with [] => _ | _ :: _ => _ end] => destruct l; [|discriminate]
    end;
    try discriminate; by eapply checked_range.
Qed.

Lemma ref_strptime_empty f : f ∈ fmts -> strptime [] f = None.
Proof.
  unfold fmts. rewrite !elem_of_cons, elem_of_nil.
  intros [-> | [-> | [-> | []]]]; reflexivity.
Qed.

End Ref.

Definition ref_runtime : PyRuntime :=
  {| str_upper := Ref.upper;
     str_upper_empty := eq_refl;
     str_repr := Ref.repr_str;
     float_repr := Ref.repr_float;
     fromisoformat := Ref.fromisoformat;
     strptime := Ref.strptime;
     fromisoformat_range := Ref.ref_fromisoformat_range;
     strptime_range := Ref.ref_strptime_range;
     fromisoformat_empty := eq_refl;
     strptime_empty := Ref.ref_strptime_empty |}.

(** * Properties *)

(** ** Strings *)

Lemma rstrip_of_snoc p s c :
  rstrip_of p (s ++ [c]) = if p c then rstrip_of p s else s ++ [c].
Proof.
  induction s as [|a t IH]; simpl.
  - by destruct (p c).
  - rewrite IH. destruct (p c); [done|].
    by destruct t.
Qed.

Lemma lstrip_of_snoc p s c :
  p c = false -> lstrip_of p (s ++ [c]) = lstrip_of p s ++ [c].
Proof.
  intros Hc. induction s as [|a t IH]; simpl.
  - by rewrite Hc.
  - by destruct (p a).
Qed.

Lemma lstrip_of_app p s t c :
  p c = false -> lstrip_of p (s ++ c :: t) = lstrip_of p s ++ c :: t.
Proof.
  intros Hc. induction s as [|a s IH]; simpl.
  - by rewrite Hc.
  - by destruct (p a).
Qed.

Lemma rstrip_of_app p s t c :
  p c = false -> rstrip_of p (s ++ t ++ [c]) = s ++ t ++ [c].
Proof.
  intros Hc. rewrite app_assoc, rstrip_of_snoc, Hc. done.
Qed.

Lemma lstrip_of_all p s : forallb p s = true -> lstrip_of p s = [].
Proof.
  induction s as [|a t IH]; simpl; [done|].
  intros [Ha Ht]%andb_true_iff. by rewrite Ha, IH.
Qed.

Lemma str_endswith_snoc s c d :
  str_endswith (s ++ [c]) [d] = bool_decide (c = d).
Proof.
  unfold str_endswith. rewrite length_app. simpl.
  replace (length s + 1 - 1)%nat with (length s) by lia.
  rewrite drop_app_length.
  apply bool_decide_ext. split; congruence.
Qed.

Lemma str_drop_last_snoc s c : str_drop_last (s ++ [c]) = s.
Proof.
  unfold str_drop_last. rewrite length_app. simpl.
  replace (length s + 1 - 1)%nat with (length s) by lia.
  by rewrite take_app_length.
Qed.

Lemma str_split_nonempty sep s : str_split sep s ≠ [].
Proof.
  destruct s as [|c t]; simpl; [done|].
  destruct (c =? sep)%N; [done|]. by destruct (str_split sep t).
Qed.

Lemma str_split_snoc_sep sep s :
  str_split sep (s ++ [sep]) = str_split sep s ++ [[]].
Proof.
  induction s as [|a t IH]; simpl.
  - by rewrite N.eqb_refl.
  - rewrite IH. destruct (a =? sep)%N; [done|].
    destruct (str_split sep t) eqn:E; [|done].
    by apply str_split_nonempty in E.
Qed.

Lemma str_split_snoc_other sep s c :
  c ≠ sep ->
  exists init seg,
    str_split sep s = init ++ [seg] /\
    str_split sep (s ++ [c]) = init ++ [seg ++ [c]].
Proof.
  intros Hc. induction s as [|a t (init & seg & E1 & E2)]; simpl.
  - exists [], []. split; [done|].
    by rewrite (proj2 (N.eqb_neq c sep) Hc).
  - rewrite E1, E2. destruct (a =? sep)%N.
    + by exists ([] :: init), seg.
    + destruct init as [|i0 init]; simpl.
      * by exists [], (a :: seg).
      * by exists ((a :: i0) :: init), seg.
Qed.

Lemma last_nonempty_snoc_nil segs : last_nonempty (segs ++ [[]]) = last_nonempty segs.
Proof.
  unfold last_nonempty. rewrite filter_app.
  rewrite filter_cons_False by (intros H; by apply H).
  by rewrite filter_nil, app_nil_r.
Qed.

Lemma last_nonempty_snoc segs seg :
  seg ≠ [] -> last_nonempty (segs ++ [seg]) = seg.
Proof.
  intros H. unfold last_nonempty. rewrite filter_app.
  rewrite filter_cons_True by done.
  by rewrite filter_nil, last_snoc.
Qed.

(** The code's expression [url.rstrip("/").split("/")[-1]] picks the last
    non-empty segment of the whole text. *)
Lemma rstrip_split_last u :
  last (str_split SLASH (str_rstrip (lit "/") u))
  = Some (last_nonempty (str_split SLASH u)).
Proof.
  unfold str_rstrip.
  induction u as [|c s IH] using rev_ind; [done|].
  rewrite rstrip_of_snoc.
  case_bool_decide as Hc.
  - apply list_elem_of_singleton in Hc as ->.
    rewrite IH. change 47%N with SLASH.
    by rewrite str_split_snoc_sep, last_nonempty_snoc_nil.
  - assert (c ≠ SLASH) as Hne.
    { intros ->. apply Hc. by apply list_elem_of_singleton. }
    destruct (str_split_snoc_other SLASH s c Hne) as (init & seg & _ & ->).
    rewrite last_snoc, last_nonempty_snoc; [done|].
    by destruct seg.
Qed.

(** Stripping one trailing slash does not change the last non-empty
    segment. *)
Lemma strip_trailing_slash_last u :
  last_nonempty (str_split SLASH (strip_trailing_slash u))
  = last_nonempty (str_split SLASH u).
Proof.
  unfold strip_trailing_slash.
  destruct u as [|c s _] using rev_ind; [done|].
  change (lit "/") with [SLASH].
  rewrite str_endswith_snoc. case_bool_decide as Hc; [|done].
  subst c. by rewrite str_drop_last_snoc, str_split_snoc_sep, last_nonempty_snoc_nil.
Qed.

(** ** [flatten_record] *)

Section Flatten.
Context `{RT : PyRuntime}.

Lemma bind_Ok_inv {A B} (m : result A) (f : A -> result B) b :
  m ≫= f = Ok b -> exists a, m = Ok a /\ f a = Ok b.
Proof. destruct m as [a|e]; simpl; [eauto | discriminate]. Qed.

Lemma duplicates_arg_falsy rec :
  truthy (dict_get rec "duplicates" JNull) = false -> duplicates_arg rec = JList [].
Proof.
  unfold duplicates_arg, dict_get, py_or.
  destruct (rec !! "duplicates") as [v|]; simpl; [|done].
  by intros ->.
Qed.

Lemma duplicates_arg_truthy rec :
  truthy (dict_get rec "duplicates" JNull) = true ->
  duplicates_arg rec = dict_get rec "duplicates" JNull.
Proof.
  unfold duplicates_arg, dict_get, py_or.
  destruct (rec !! "duplicates") as [v|]; simpl; [|done].
  by intros ->.
Qed.

(** [flatten_record] fails in one place only, the [len] of its last line. *)
Lemma flatten_record_len rec :
  match py_len (duplicates_arg rec) with
  | Ok n => exists out, flatten_record rec = Ok (<["duplicates_count" := JInt n]> out)
                        /\ out !! "duplicates_count" = None
  | Raise e => flatten_record rec = Raise e
  end.
Proof.
  unfold flatten_record. fold (duplicates_arg rec).
  destruct (py_len (duplicates_arg rec)) as [n|e]; simpl; [|done].
  eexists. split; [reflexivity|]. by simplify_map_eq.
Qed.

Lemma flatten_record_Ok_iff rec :
  is_Ok (flatten_record rec)
  <-> truthy (dict_get rec "duplicates" JNull) = false
      \/ has_len (dict_get rec "duplicates" JNull) = true.
Proof.
  pose proof (flatten_record_len rec) as H.
  destruct (truthy (dict_get rec "duplicates" JNull)) eqn:Ht.
  - rewrite (duplicates_arg_truthy _ Ht) in H.
    destruct (dict_get rec "duplicates" JNull); simpl in *;
      try (destruct H as (out & -> & _));
      try rewrite H;
      unfold is_Ok; split; try (intros [? ?]); try (intros [?|?]);
      try discriminate; eauto.
  - rewrite (duplicates_arg_falsy _ Ht) in H. simpl in H.
    destruct H as (out & -> & _). unfold is_Ok. split; eauto.
Qed.

Lemma flatten_record_total rec :
  truthy (dict_get rec "duplicates" JNull) = false
  \/ has_len (dict_get rec "duplicates" JNull) = true ->
  exists row, flatten_record rec = Ok row.
Proof. apply flatten_record_Ok_iff. Qed.

Lemma flatten_record_lookup rec row :
  flatten_record rec = Ok row ->
  row !! "id_base64"
    = Some (JStr (extract_id_from_detail_url (py_or (dict_get rec "url" EMPTY) EMPTY)))
  /\ row !! "press_urls" = Some (JStr (press_urls (dict_get rec "press" JNull)))
  /\ (exists n, py_len (duplicates_arg rec) = Ok n
                /\ row !! "duplicates_count" = Some (JInt n))
  /\ (forall col src, (col, src) ∈ PASSTHROUGH ->
        row !! col = Some (py_or (dict_get rec src JNull) EMPTY))
  /\ dom row = list_to_set CSV_FIELDS.
Proof.
  unfold flatten_record. fold (duplicates_arg rec).
  intros (n & Hn & [= <-])%bind_Ok_inv.
  split; [by simplify_map_eq|].
  split; [by simplify_map_eq|].
  split; [exists n; split; [done|by simplify_map_eq]|].
  split.
  - intros col src Hin. unfold PASSTHROUGH in Hin.
    repeat (apply elem_of_cons in Hin as [[= -> ->]|Hin]; [by simplify_map_eq|]).
    by apply elem_of_nil in Hin.
  - rewrite !dom_insert_L, dom_empty_L. unfold CSV_FIELDS. simpl. set_solver.
Qed.

Lemma str_items_omap l :
  str_items l = omap (fun v => match v with JStr s => Some s | _ => None end) l.
Proof.
  induction l as [|v l IH]; [done|].
  destruct v; simpl; by rewrite ?IH.
Qed.

Lemma press_urls_refines rec :
  press_urls (dict_get rec "press" JNull) = press_urls_spec (rec !! "press").
Proof.
  unfold dict_get. destruct (rec !! "press") as [v|]; simpl; [|done].
  destruct v; simpl; try done.
  by rewrite str_items_omap.
Qed.

Lemma extract_id_refines rec :
  extract_id_from_detail_url (py_or (dict_get rec "url" EMPTY) EMPTY)
  = id_of_url_spec (rec !! "url").
Proof.
  unfold dict_get, py_or. destruct (rec !! "url") as [v|]; simpl; [|done].
  destruct (truthy v) eqn:Ht.
  - unfold extract_id_from_detail_url. rewrite Ht. simpl.
    destruct v; simpl; try done.
    unfold list_last_item.
    by rewrite rstrip_split_last, strip_trailing_slash_last.
  - destruct v; simpl in *; try done.
    by destruct s.
Qed.

(** C6. The export row's [id_base64] is the last non-empty "/"-separated
    segment of the record's [url] after a trailing slash is stripped, and the
    empty string when [url] is absent or is no text to take segments of;
    "https://x.example/report/abc123/" gives "abc123", an empty or absent
    URL gives "". *)
Theorem id_base64_last_segment (rec : record) :
  extract_id_from_detail_url (py_or (dict_get rec "url" EMPTY) EMPTY)
    = id_of_url_spec (rec !! "url")
  /\ (forall row, flatten_record rec = Ok row ->
        row !! "id_base64" = Some (JStr (id_of_url_spec (rec !! "url"))))
  /\ extract_id_from_detail_url (JStr (lit "https://x.example/report/abc123/"))
       = lit "abc123"
  /\ extract_id_from_detail_url (JStr []) = []
  /\ id_of_url_spec (Some (JStr (lit "https://x.example/report/abc123/"))) = lit "abc123"
  /\ id_of_url_spec (Some (JStr [])) = []
  /\ id_of_url_spec (Some JNull) = []
  /\ id_of_url_spec None = [].
Proof.
  split; [apply extract_id_refines|].
  split; [|by vm_compute].
  intros row Hrow. apply flatten_record_lookup in Hrow as (-> & _).
  by rewrite extract_id_refines.
Qed.

(** C7. [press_urls] is empty when [press] is absent or null, the "|"-join
    of the string elements when [press] is a list (other elements dropped),
    and the stringification of the value otherwise. *)
Theorem press_urls_flattened (rec : record) :
  press_urls (dict_get rec "press" JNull) = press_urls_spec (rec !! "press")
  /\ (forall row, flatten_record rec = Ok row ->
        row !! "press_urls" = Some (JStr (press_urls_spec (rec !! "press"))))
  /\ press_urls (JList [JStr (lit "http://a"); JStr (lit "http://b")])
       = lit "http://a|http://b"
  /\ press_urls (JList [JStr (lit "http://a"); JInt 7; JNull; JStr (lit "http://b")])
       = lit "http://a|http://b"
  /\ press_urls JNull = []
  /\ press_urls (JStr (lit "http://a")) = lit "http://a".
Proof.
  split; [apply press_urls_refines|].
  split; [|by vm_compute].
  intros row Hrow. apply flatten_record_lookup in Hrow as (_ & -> & _).
  by rewrite press_urls_refines.
Qed.

Lemma py_or_falsy v : truthy v = false -> py_or v EMPTY = EMPTY.
Proof. unfold py_or. by intros ->. Qed.

(** C10. A flattened row has exactly the 14 CSV columns as its keys; every
    column but [duplicates_count] holds a string when its source field is
    absent or falsy, and [duplicates_count] holds an integer. *)
Theorem export_row_shape (rec : record) (row : row) :
  flatten_record rec = Ok row ->
  dom row = list_to_set CSV_FIELDS
  /\ length CSV_FIELDS = 14%nat
  /\ NoDup CSV_FIELDS
  /\ (forall col src, (col, src) ∈ PASSTHROUGH ->
        truthy (dict_get rec src JNull) = false -> row !! col = Some (JStr []))
  /\ (truthy (dict_get rec "url" JNull) = false -> row !! "id_base64" = Some (JStr []))
  /\ (exists s, row !! "id_base64" = Some (JStr s))
  /\ (exists s, row !! "press_urls" = Some (JStr s))
  /\ (exists n, row !! "duplicates_count" = Some (JInt n)).
Proof.
  intros (Hid & Hpress & (n & _ & Hn) & Hpass & Hdom)%flatten_record_lookup.
  split; [done|]. split; [done|].
  split; [refine (bool_decide_unpack _ _); by vm_compute|].
  split.
  { intros col src Hin Hf. rewrite (Hpass _ _ Hin). by rewrite py_or_falsy. }
  split.
  { intros Hf. rewrite Hid. f_equal. f_equal.
    rewrite extract_id_refines. clear -Hf. unfold dict_get in Hf.
    destruct (rec !! "url") as [v|]; simpl in *; [|done].
    destruct v; simpl in *; try done. by destruct s. }
  split; [eauto|]. split; eauto.
Qed.

(** C5, as the code has it. Flattening succeeds exactly when [duplicates] is
    absent, falsy or a value with a length (list, string, object); the
    count is 0 when [duplicates] is absent or falsy and the number of
    entries when it is a list. *)
Theorem duplicates_count_sized (rec : record) :
  (is_Ok (flatten_record rec)
   <-> truthy (dict_get rec "duplicates" JNull) = false
       \/ has_len (dict_get rec "duplicates" JNull) = true)
  /\ (forall row, flatten_record rec = Ok row ->
        (truthy (dict_get rec "duplicates" JNull) = false ->
           row !! "duplicates_count" = Some (JInt 0))
        /\ (forall l, rec !! "duplicates" = Some (JList l) ->
              row !! "duplicates_count" = Some (JInt (Z.of_nat (length l)))))
  /\ (forall e, flatten_record rec = Raise e -> e = TypeError).
Proof.
  split; [apply flatten_record_Ok_iff|]. split.
  - intros row (_ & _ & (n & Hn & ->) & _)%flatten_record_lookup. split.
    + intros Hf. rewrite (duplicates_arg_falsy _ Hf) in Hn. by injection Hn as <-.
    + intros l Hl. revert Hn. unfold duplicates_arg, dict_get, py_or. rewrite Hl. simpl.
      destruct l; simpl; by intros [= <-].
  - intros e He. pose proof (flatten_record_len rec) as H.
    destruct (py_len (duplicates_arg rec)) as [n|e'] eqn:E.
    + destruct H as (out & H & _). congruence.
    + assert (e' = e) as -> by congruence.
      clear -E. destruct (duplicates_arg rec); simpl in E; congruence.
Qed.

End Flatten.

Lemma id_base64_last_segment_witness :
  exists row,
    flatten_record (RT := ref_runtime)
      {[ "url" := JStr (lit "https://x/r/id1") ]} = Ok row
    /\ row !! "id_base64" = Some (JStr (lit "id1")).
Proof.
  destruct (flatten_record_total (RT := ref_runtime)
              {[ "url" := JStr (lit "https://x/r/id1") ]}) as [row E];
    [by left; vm_compute|].
  exists row. split; [exact E|].
  rewrite (proj1 (proj2 (id_base64_last_segment _)) row E).
  by vm_compute.
Defined.

Lemma press_urls_flattened_witness :
  exists row,
    flatten_record (RT := ref_runtime)
      {[ "press" := JList [JStr (lit "http://a"); JStr (lit "http://b")] ]} = Ok row
    /\ row !! "press_urls" = Some (JStr (lit "http://a|http://b")).
Proof.
  destruct (flatten_record_total (RT := ref_runtime)
     {[ "press" := JList [JStr (lit "http://a"); JStr (lit "http://b")] ]}) as [row E];
    [by left; vm_compute|].
  exists row. split; [exact E|].
  rewrite (proj1 (proj2 (press_urls_flattened _)) row E).
  by vm_compute.
Defined.

Lemma export_row_shape_witness :
  exists row,
    flatten_record (RT := ref_runtime) {[ "victim" := JInt 0 ]} = Ok row
    /\ dom row = list_to_set CSV_FIELDS
    /\ row !! "victim" = Some (JStr []).
Proof.
  destruct (flatten_record_total (RT := ref_runtime) {[ "victim" := JInt 0 ]})
    as [row E]; [by left; vm_compute|].
  exists row. split; [exact E|].
  destruct (export_row_shape _ row E) as (Hdom & _ & _ & Hpass & _).
  split; [exact Hdom|].
  apply (Hpass "victim" "victim"); [by apply list_elem_of_here | by vm_compute].
Defined.

Lemma duplicates_count_sized_witness :
  exists row,
    flatten_record (RT := ref_runtime)
      {[ "duplicates" := JList [JInt 1; JInt 2] ]} = Ok row
    /\ row !! "duplicates_count" = Some (JInt 2).
Proof.
  destruct (flatten_record_total (RT := ref_runtime)
     {[ "duplicates" := JList [JInt 1; JInt 2] ]}) as [row E];
    [by right; vm_compute|].
  exists row. split; [exact E|].
  apply (proj2 (proj1 (proj2 (duplicates_count_sized _)) row E) [JInt 1; JInt 2]).
  by vm_compute.
Defined.

(** C5 as stated fails: a record whose [duplicates] is the number 5 makes
    [flatten_record] raise, and the run with it. *)
Lemma duplicates_number_raises :
  flatten_record (RT := ref_runtime) {[ "duplicates" := JInt 5 ]} = Raise TypeError
  /\ main (RT := ref_runtime) 63871372800000000 3650
       [ <[ "country" := JStr (lit "US") ]>
           (<[ "discovered" := JStr (lit "2025-01-01T00:00:00Z") ]>
              {[ "duplicates" := JInt 5 ]}) ]
     = Raise TypeError.
Proof. split; by vm_compute. Qed.

(** ** [parse_date] *)

Section ParseDate.
Context `{RT : PyRuntime}.

Lemma str_strip_all_space s : forallb is_space s = true -> str_strip s = [].
Proof. intros H. unfold str_strip. by rewrite lstrip_of_all. Qed.

Lemma normalized_text_Z s :
  normalized_text (s ++ lit "Z") = lstrip_of is_space s ++ lit "+00:00".
Proof.
  unfold normalized_text, str_strip. change (lit "Z") with [90%N].
  rewrite lstrip_of_snoc by done.
  rewrite rstrip_of_snoc. change (is_space 90) with false. cbv iota.
  by rewrite str_endswith_snoc, str_drop_last_snoc.
Qed.

Lemma normalized_text_offset s :
  normalized_text (s ++ lit "+00:00") = lstrip_of is_space s ++ lit "+00:00".
Proof.
  unfold normalized_text, str_strip.
  change (lit "+00:00") with (43%N :: [48; 48; 58; 48]%N ++ [48%N]).
  rewrite lstrip_of_app by done.
  change (lstrip_of is_space s ++ 43%N :: [48; 48; 58; 48]%N ++ [48%N])
    with (lstrip_of is_space s ++ [43; 48; 48; 58; 48]%N ++ [48%N]).
  rewrite rstrip_of_app by done.
  change (lit "Z") with [90%N].
  by rewrite !app_assoc, str_endswith_snoc.
Qed.

Lemma parse_date_str s :
  s ≠ [] ->
  parse_date (JStr s)
  = match iso_attempt (normalized_text s) with
    | Ok t => Ok (Some t)
    | Raise _ => Ok (strptime_loop (normalized_text s) fmts)
    end.
Proof. by destruct s. Qed.

Lemma strptime_loop_first_success s :
  match iso_attempt s with
  | Ok t => Some t
  | Raise _ => strptime_loop s fmts
  end = first_success (attempts s).
Proof.
  unfold attempts, fmts. simpl.
  destruct (iso_attempt s); [done|].
  by repeat (destruct (strptime s _); simpl; [done|]).
Qed.

Lemma strptime_loop_empty : strptime_loop [] fmts = None.
Proof.
  unfold fmts. simpl.
  rewrite !strptime_empty; [done|..]; unfold fmts; set_solver.
Qed.

Lemma parse_date_refines (s : option pystr) :
  parse_date (of_optional s) = Ok (parse_date_spec s).
Proof.
  destruct s as [s|]; [|done]. unfold of_optional, parse_date_spec.
  destruct s as [|c s]; [done|].
  rewrite parse_date_str by done.
  destruct (forallb is_space (c :: s)) eqn:Hsp.
  - unfold normalized_text. rewrite str_strip_all_space by done.
    change (str_endswith [] (lit "Z")) with false. cbv iota.
    unfold iso_attempt. rewrite fromisoformat_empty.
    by rewrite strptime_loop_empty.
  - rewrite <- strptime_loop_first_success.
    by destruct (iso_attempt _).
Qed.

(** C9. The Date Normalizer is total over optional strings and never lets an
    exception out: it returns what the ordered attempts give (ISO-8601, then
    the three [strptime] formats), and "none" for an absent, empty or
    whitespace-only input and when every attempt fails. *)
Theorem parse_date_total (s : option pystr) :
  parse_date (of_optional s) = Ok (parse_date_spec s)
  /\ parse_date JNull = Ok None
  /\ parse_date (JStr []) = Ok None
  /\ (forall t, forallb is_space t = true -> parse_date (JStr t) = Ok None)
  /\ (forall t, Forall (fun a => a = None) (attempts (normalized_text t)) ->
        parse_date (JStr t) = Ok None).
Proof.
  split; [apply parse_date_refines|].
  split; [done|]. split; [done|]. split.
  - intros t Ht. change (JStr t) with (of_optional (Some t)).
    rewrite parse_date_refines. unfold parse_date_spec. by rewrite Ht.
  - intros t Ht. change (JStr t) with (of_optional (Some t)).
    rewrite parse_date_refines. unfold parse_date_spec.
    destruct (forallb is_space t); [done|].
    f_equal. induction Ht as [|a l -> _ IH]; [done|]. exact IH.
Qed.

(** C8. A text ending in "Z" is normalized to the same instant as the text
    with the "Z" replaced by "+00:00": the two inputs give the same result,
    and when the replaced text parses as ISO-8601 to an instant, that instant
    is the result. *)
Theorem parse_date_trailing_Z (s : pystr) :
  parse_date (JStr (s ++ lit "Z")) = parse_date (JStr (s ++ lit "+00:00"))
  /\ (forall t, lstrip_of is_space s = s ->
        iso_attempt (s ++ lit "+00:00") = Ok t ->
        parse_date (JStr (s ++ lit "Z")) = Ok (Some t)).
Proof.
  assert (s ++ lit "Z" ≠ []) as HZ by (by destruct s).
  assert (s ++ lit "+00:00" ≠ []) as HO by (by destruct s).
  rewrite !parse_date_str by done.
  rewrite normalized_text_Z, normalized_text_offset.
  split; [done|].
  intros t -> ->. done.
Qed.

End ParseDate.

Lemma parse_date_total_witness :
  parse_date (RT := ref_runtime) (JStr [160; 32; 8195; 10]%N) = Ok None
  /\ parse_date (RT := ref_runtime) (JStr (lit "13 Oct 2025")) = Ok None.
Proof.
  split.
  - apply (proj1 (proj2 (proj2 (proj2 (parse_date_total (RT := ref_runtime) None))))).
    by vm_compute.
  - apply (proj2 (proj2 (proj2 (proj2 (parse_date_total (RT := ref_runtime) None))))).
    by vm_compute; repeat constructor.
Defined.

Lemma parse_date_trailing_Z_witness :
  parse_date (RT := ref_runtime) (JStr (lit "2025-01-01T00:00:00Z"))
  = Ok (Some 63871286400000000).
Proof.
  apply (proj2 (parse_date_trailing_Z (RT := ref_runtime) (lit "2025-01-01T00:00:00"))
           63871286400000000); by vm_compute.
Defined.

(** ** The filter loop *)

Section Filter.
Context `{RT : PyRuntime}.

Lemma filter_loop_Ok cutoff recs acc :
  Forall (fun r => is_Ok (keep cutoff r)) recs ->
  filter_loop cutoff recs acc = Ok (acc ++ filter (fun r => kept cutoff r = true) recs).
Proof.
  intros H. revert acc. induction H as [|r recs [b Hb] _ IH]; intros acc; simpl.
  - by rewrite app_nil_r.
  - rewrite Hb. simpl. rewrite IH.
    assert (kept cutoff r = b) as Hk by (unfold kept; by rewrite Hb).
    destruct b.
    + rewrite filter_cons_True by done. by rewrite <- app_assoc.
    + rewrite filter_cons_False; [done|]. by rewrite Hk.
Qed.

Lemma filter_loop_inv cutoff recs acc out :
  filter_loop cutoff recs acc = Ok out ->
  Forall (fun r => is_Ok (keep cutoff r)) recs
  /\ out = acc ++ filter (fun r => kept cutoff r = true) recs.
Proof.
  intros H.
  assert (Forall (fun r => is_Ok (keep cutoff r)) recs) as HF.
  { revert acc H. induction recs as [|r recs IH]; intros acc H; [constructor|].
    simpl in H. apply bind_Ok_inv in H as (b & Hb & H).
    constructor; [by exists b | by eapply IH]. }
  split; [done|]. rewrite (filter_loop_Ok _ _ _ HF) in H. congruence.
Qed.

(** A record the loop skips leaves no trace in the run. *)
Lemma filter_loop_skip cutoff l1 rec l2 acc :
  keep cutoff rec = Ok false ->
  filter_loop cutoff (l1 ++ rec :: l2) acc = filter_loop cutoff (l1 ++ l2) acc.
Proof.
  intros Hk. revert acc. induction l1 as [|r l1 IH]; intros acc; simpl.
  - by rewrite Hk.
  - destruct (keep cutoff r) as [b|e]; simpl; [apply IH | done].
Qed.

Lemma cutoff_of_Ok now days cutoff :
  cutoff_of now days = Ok cutoff -> cutoff = now - days * US_PER_DAY.
Proof.
  unfold cutoff_of. destruct (_ <? _); [done|].
  destruct (in_datetime_range _); congruence.
Qed.

Lemma country_upper_absent rec :
  truthy (dict_get rec "country" JNull) = false -> country_upper rec = Ok [].
Proof.
  intros H. unfold country_upper, py_or. rewrite H. simpl.
  by rewrite str_upper_empty.
Qed.

Lemma country_upper_insert rec k v :
  k ≠ "country" -> country_upper (<[k := v]> rec) = country_upper rec.
Proof.
  intros Hk. unfold country_upper, dict_get. by rewrite lookup_insert_ne.
Qed.

Lemma keep_non_us cutoff rec c :
  country_upper rec = Ok c -> c ∉ US_NAMES -> keep cutoff rec = Ok false.
Proof.
  intros Hc Hn. unfold keep. rewrite Hc. simpl.
  by rewrite bool_decide_eq_false_2.
Qed.

Lemma keep_us cutoff rec c :
  country_upper rec = Ok c -> c ∈ US_NAMES ->
  keep cutoff rec
  = (dt ← parse_date (date_s rec);
     match dt with
     | None => mret false
     | Some dt => if dt <? cutoff then mret false else mret true
     end).
Proof.
  intros Hc Hn. unfold keep. rewrite Hc. simpl.
  by rewrite bool_decide_eq_true_2.
Qed.

Lemma date_s_refines rec : parse_date (date_s rec) = reference_date_spec rec.
Proof.
  unfold date_s, reference_date_spec, py_or. cbn [List.find].
  destruct (truthy (dict_get rec "discovered" JNull)) eqn:Hd; cbv iota;
    [by rewrite ?Hd|].
  destruct (truthy (dict_get rec "attackdate" JNull)) eqn:Ha; cbv iota;
    [by rewrite ?Ha|].
  destruct (truthy (dict_get rec "date" JNull)) eqn:Hg; [done|].
  unfold parse_date. by rewrite Hg.
Qed.

(** On a value that is truthy and not a string, [s.strip()] and
    [(...).upper()] fail: the exception leaves [parse_date] (it is raised
    before the [try]) and the loop. *)
Lemma parse_date_non_string v :
  truthy v = true -> text_or_falsy v = false -> parse_date v = Raise AttributeError.
Proof. unfold parse_date. intros ->. by destruct v. Qed.

Lemma country_upper_non_string rec :
  text_or_falsy (dict_get rec "country" JNull) = false ->
  country_upper rec = Raise AttributeError.
Proof.
  unfold country_upper, py_or.
  destruct (dict_get rec "country" JNull) as [| [] | n | f | s | l | d]; simpl; try done.
  - destruct (n =? 0); done.
  - destruct f; done.
  - destruct l; done.
  - destruct d; done.
Qed.

Lemma parse_date_text v : text_or_falsy v = true -> is_Ok (parse_date v).
Proof.
  unfold parse_date, is_Ok. intros H.
  destruct v as [| b | n | f | s | l | d]; cbn [truthy text_or_falsy] in *;
    repeat match goal with
           | |- context [if ?c then _ else _] => destruct c eqn:?
           | |- context [match ?x with _ => _ end] => destruct x eqn:?
           end;
    simpl in *; try discriminate; eauto.
Qed.

Lemma country_upper_text rec :
  text_or_falsy (dict_get rec "country" JNull) = true -> is_Ok (country_upper rec).
Proof.
  unfold country_upper, py_or, is_Ok. intros H.
  destruct (dict_get rec "country" JNull) as [| b | n | f | s | l | d]; simpl in *;
    repeat match goal with
           | |- context [if ?c then _ else _] => destruct c eqn:?
           | |- context [match ?x with _ => _ end] => destruct x eqn:?
           end;
    simpl in *; try discriminate; eauto.
Qed.

(** On records of the upstream shape the loop does not raise. *)
Lemma keep_total cutoff rec :
  text_or_falsy (dict_get rec "country" JNull) = true ->
  text_or_falsy (date_s rec) = true ->
  is_Ok (keep cutoff rec).
Proof.
  intros [c Hc]%country_upper_text [dt Hdt]%parse_date_text.
  unfold keep. rewrite Hc. simpl.
  destruct (negb _); [by eexists|].
  rewrite Hdt. simpl. destruct dt as [dt|]; [|by eexists].
  destruct (dt <? cutoff); by eexists.
Qed.

End Filter.

(** ** The sort *)

Section KeyedSort.
Implicit Types (x y : utc_time * record) (l : list (utc_time * record)).

Lemma insert_keyed_perm x l : insert_keyed x l ≡ₚ x :: l.
Proof.
  induction l as [|y t IH]; simpl; [done|].
  destruct (fst y <? fst x); [|done].
  rewrite IH. apply Permutation_swap.
Qed.

Lemma sort_keyed_perm l : sort_keyed l ≡ₚ l.
Proof.
  induction l as [|x t IH]; simpl; [done|].
  by rewrite insert_keyed_perm, IH.
Qed.

Lemma insert_keyed_sorted x l :
  StronglySorted keyed_le l -> StronglySorted keyed_le (insert_keyed x l).
Proof.
  induction 1 as [|y t Hs IH Hy]; simpl.
  - repeat constructor.
  - destruct (fst y <? fst x) eqn:Hlt.
    + constructor; [done|].
      rewrite insert_keyed_perm. constructor; [|done].
      unfold keyed_le. lia.
    + constructor; [by constructor|].
      constructor; [unfold keyed_le; lia|].
      eapply Forall_impl; [exact Hy|].
      unfold keyed_le. intros z Hz. lia.
Qed.

Lemma sort_keyed_sorted l : StronglySorted keyed_le (sort_keyed l).
Proof.
  induction l as [|x t IH]; simpl; [constructor|].
  by apply insert_keyed_sorted.
Qed.

(** Insertion moves an item only past strictly smaller keys, so items of
    one key keep their order. *)
Lemma insert_keyed_stable k x l :
  filter (fun p => fst p = k) (insert_keyed x l) = filter (fun p => fst p = k) (x :: l).
Proof.
  induction l as [|y t IH]; simpl; [done|].
  destruct (fst y <? fst x) eqn:Hlt; [|done].
  rewrite filter_cons, IH, !(filter_cons _ x), (filter_cons _ y).
  repeat case_decide; try done. lia.
Qed.

Lemma sort_keyed_stable k l :
  filter (fun p => fst p = k) (sort_keyed l) = filter (fun p => fst p = k) l.
Proof.
  induction l as [|x t IH]; simpl; [done|].
  by rewrite insert_keyed_stable, !filter_cons, IH.
Qed.

(** Sorted and stable determine the result: whatever stable sorting
    algorithm [list.sort] runs, it returns [sort_keyed l]. *)
Lemma sorted_stable_unique l1 l2 :
  StronglySorted keyed_le l1 -> StronglySorted keyed_le l2 ->
  (forall k, filter (fun p => fst p = k) l1 = filter (fun p => fst p = k) l2) ->
  l1 = l2.
Proof.
  intros H1. revert l2. induction H1 as [|x t1 Hs1 IH Hx]; intros l2 H2 Hf.
  - destruct l2 as [|y t2]; [done|].
    specialize (Hf (fst y)). rewrite filter_nil, filter_cons_True in Hf by done.
    discriminate.
  - destruct H2 as [|y t2 Hs2 Hy].
    { specialize (Hf (fst x)). rewrite filter_nil, filter_cons_True in Hf by done.
      discriminate. }
    assert (fst x = fst y) as Hxy.
    { assert (keyed_le x y) as Hle1.
      { destruct (decide (fst x = fst y)) as [E|NE]; [unfold keyed_le; lia|].
        assert (y ∈ filter (fun p => fst p = fst y) (x :: t1)) as Hin.
        { rewrite Hf. apply list_elem_of_filter. split; [done|]. by left. }
        apply list_elem_of_filter in Hin as [_ Hin].
        apply elem_of_cons in Hin as [->|Hin]; [done|].
        rewrite Forall_forall in Hx. by apply Hx. }
      assert (keyed_le y x) as Hle2.
      { destruct (decide (fst x = fst y)) as [E|NE]; [unfold keyed_le; lia|].
        assert (x ∈ filter (fun p => fst p = fst x) (y :: t2)) as Hin.
        { rewrite <- Hf. apply list_elem_of_filter. split; [done|]. by left. }
        apply list_elem_of_filter in Hin as [_ Hin].
        apply elem_of_cons in Hin as [->|Hin]; [done|].
        rewrite Forall_forall in Hy. by apply Hy. }
      unfold keyed_le in *. lia. }
    pose proof (Hf (fst x)) as Hhead.
    rewrite filter_cons_True in Hhead by done.
    rewrite filter_cons_True in Hhead by done.
    injection Hhead as -> _.
    f_equal. apply IH; [done|].
    intros k. specialize (Hf k). rewrite !filter_cons in Hf.
    case_decide; congruence.
Qed.

Lemma sort_keyed_unique l l' :
  StronglySorted keyed_le l' ->
  (forall k, filter (fun p => fst p = k) l' = filter (fun p => fst p = k) l) ->
  l' = sort_keyed l.
Proof.
  intros Hs Hf. apply sorted_stable_unique; [done|apply sort_keyed_sorted|].
  intros k. by rewrite sort_keyed_stable.
Qed.

End KeyedSort.

Section SortRecords.
Context `{RT : PyRuntime}.

Lemma mapM_Ok_inv {A B} (f : A -> result B) l ys :
  mapM f l = Ok ys -> Forall2 (fun x y => f x = Ok y) l ys.
Proof.
  revert ys. induction l as [|x l IH]; intros ys; simpl.
  - intros [= <-]. constructor.
  - intros (y & Hy & (k & Hk & [= <-])%bind_Ok_inv)%bind_Ok_inv.
    constructor; [done | by apply IH].
Qed.

Lemma mapM_Ok_map {A B} (f : A -> result B) (g : A -> B) l :
  Forall (fun x => f x = Ok (g x)) l -> mapM f l = Ok (map g l).
Proof.
  induction 1 as [|x l Hx _ IH]; simpl; [done|].
  by rewrite Hx, IH.
Qed.

Lemma key_of_Ok r k : sort_key r = Ok k -> key_of r = k.
Proof. unfold key_of. by intros ->. Qed.

Lemma zip_decorate (l : list record) : zip (map key_of l) l = decorate l.
Proof. induction l as [|r l IH]; simpl; [done|]. by rewrite IH. Qed.

Lemma snd_decorate (l : list record) : map snd (decorate l) = l.
Proof. induction l as [|r l IH]; simpl; [done|]. by rewrite IH. Qed.

Lemma sort_records_Ok l :
  Forall (fun r => is_Ok (sort_key r)) l ->
  sort_records l = Ok (map snd (sort_keyed (decorate l))).
Proof.
  intros H. unfold sort_records.
  rewrite (mapM_Ok_map sort_key key_of).
  - simpl. by rewrite zip_decorate.
  - eapply Forall_impl; [exact H|].
    intros r [k Hk]. simpl. by rewrite (key_of_Ok _ _ Hk).
Qed.

Lemma sort_records_inv l out :
  sort_records l = Ok out ->
  Forall (fun r => is_Ok (sort_key r)) l
  /\ out = map snd (sort_keyed (decorate l)).
Proof.
  intros H.
  assert (Forall (fun r => is_Ok (sort_key r)) l) as HF.
  { unfold sort_records in H. apply bind_Ok_inv in H as (keys & Hk & _).
    apply mapM_Ok_inv in Hk. clear -Hk.
    induction Hk as [|r k l keys Hr _ IH]; constructor; [by exists k | done]. }
  split; [done|]. rewrite (sort_records_Ok _ HF) in H. congruence.
Qed.

Lemma decorate_well_keyed l : Forall well_keyed (decorate l).
Proof. induction l; constructor; done. Qed.

Lemma sort_keyed_well_keyed l : Forall well_keyed (sort_keyed (decorate l)).
Proof. rewrite sort_keyed_perm. apply decorate_well_keyed. Qed.

Lemma sorted_records (m : list (utc_time * record)) :
  Forall well_keyed m -> StronglySorted keyed_le m ->
  StronglySorted key_le (map snd m).
Proof.
  intros Hw Hs. induction Hs as [|p m Hs IH Hp]; simpl; [constructor|].
  apply Forall_cons in Hw as [Hp0 Hw].
  constructor; [by apply IH|].
  apply Forall_fmap. rewrite Forall_forall in Hp, Hw |- *.
  intros q Hq. unfold key_le. simpl.
  specialize (Hp q Hq). specialize (Hw q Hq).
  unfold keyed_le, well_keyed in *. lia.
Qed.

Lemma filter_records (m : list (utc_time * record)) k :
  Forall well_keyed m ->
  filter (fun r => key_of r = k) (map snd m)
  = map snd (filter (fun p => fst p = k) m).
Proof.
  induction 1 as [|p m Hp _ IH]; simpl; [done|].
  rewrite !filter_cons, IH. unfold well_keyed in Hp.
  repeat case_decide; simpl; congruence.
Qed.

Lemma filter_decorate l k :
  filter (fun p => fst p = k) (decorate l)
  = decorate (filter (fun r => key_of r = k) l).
Proof.
  induction l as [|r l IH]; simpl; [done|].
  rewrite !filter_cons, IH. simpl.
  by repeat case_decide.
Qed.

Lemma sorted_decorate l :
  StronglySorted key_le l -> StronglySorted keyed_le (decorate l).
Proof.
  induction 1 as [|r l Hs IH Hr]; simpl; constructor; [done|].
  apply Forall_fmap. eapply Forall_impl; [exact Hr|]. done.
Qed.

(** What [sort_records] returns: a rearrangement of its input, ascending by
    key, stable, and the only list that is all three. *)
Lemma sort_records_spec l out :
  sort_records l = Ok out ->
  out ≡ₚ l
  /\ StronglySorted key_le out
  /\ (forall k, filter (fun r => key_of r = k) out = filter (fun r => key_of r = k) l)
  /\ (forall out', StronglySorted key_le out' ->
        (forall k, filter (fun r => key_of r = k) out'
                   = filter (fun r => key_of r = k) l) ->
        out' = out).
Proof.
  intros (_ & ->)%sort_records_inv.
  split; [|split; [|split]].
  - rewrite sort_keyed_perm. by rewrite snd_decorate.
  - apply sorted_records; [apply sort_keyed_well_keyed | apply sort_keyed_sorted].
  - intros k. rewrite filter_records by apply sort_keyed_well_keyed.
    by rewrite sort_keyed_stable, filter_decorate, snd_decorate.
  - intros out' Hs Hf.
    rewrite <- (snd_decorate out'). f_equal.
    apply sort_keyed_unique; [by apply sorted_decorate|].
    intros k. by rewrite !filter_decorate, Hf.
Qed.

(** *** The key *)

Lemma astimezone_utc_range dt off t :
  astimezone_utc dt off = Ok t -> 0 <= t <= DATETIME_MAX.
Proof.
  unfold astimezone_utc, in_datetime_range.
  destruct (0 <=? _) eqn:H0; destruct (_ <=? DATETIME_MAX) eqn:H1; simpl;
    intros [= <-]; lia.
Qed.

Lemma iso_attempt_range s t : iso_attempt s = Ok t -> 0 <= t <= DATETIME_MAX.
Proof.
  unfold iso_attempt. destruct (fromisoformat s) as [dt|] eqn:E; [|done].
  destruct (dt_tz dt) as [off|].
  - apply astimezone_utc_range.
  - intros [= <-]. by eapply fromisoformat_range.
Qed.

Lemma strptime_loop_range s fs t :
  strptime_loop s fs = Some t -> 0 <= t <= DATETIME_MAX.
Proof.
  induction fs as [|f fs IH]; simpl; [done|].
  destruct (strptime s f) as [dt|] eqn:E; [|done].
  intros [= <-]. by eapply strptime_range.
Qed.

Lemma parse_date_range v t :
  parse_date v = Ok (Some t) -> 0 <= t <= DATETIME_MAX.
Proof.
  unfold parse_date. destruct (truthy v); cbn [negb]; [|done].
  destruct v; try done.
  destruct (iso_attempt _) as [t'|e] eqn:E.
  - intros [= <-]. by eapply iso_attempt_range.
  - intros H. assert (strptime_loop (normalized_text s) fmts = Some t) as H'
      by congruence.
    by eapply strptime_loop_range.
Qed.

Lemma sort_key_range r t : sort_key r = Ok t -> 0 <= t <= DATETIME_MAX.
Proof.
  unfold sort_key. intros (dt & Hdt & [= <-])%bind_Ok_inv.
  destruct dt as [t|]; simpl; [by eapply parse_date_range|].
  by vm_compute.
Qed.

Lemma sort_key_refines r : sort_key r = sort_key_spec r.
Proof.
  unfold sort_key, sort_key_spec, py_or. cbn [List.find].
  destruct (truthy (dict_get r "discovered" JNull)) eqn:Hd; cbv iota;
    [by rewrite ?Hd|].
  destruct (truthy (dict_get r "attackdate" JNull)) eqn:Ha; cbv iota;
    [by rewrite ?Ha|].
  done.
Qed.

Lemma sort_key_ignores_date r v : sort_key (<["date" := v]> r) = sort_key r.
Proof. unfold sort_key, dict_get. by rewrite !lookup_insert_ne. Qed.

(** A record the filter keeps has a key: the sort cannot raise. *)
Lemma keep_sort_key cutoff r : keep cutoff r = Ok true -> is_Ok (sort_key r).
Proof.
  unfold keep. intros (c & _ & H)%bind_Ok_inv.
  destruct (negb _); [done|].
  apply bind_Ok_inv in H as (dt & Hdt & H).
  destruct dt as [dt|]; [|done].
  unfold sort_key. revert Hdt. unfold date_s, py_or.
  destruct (truthy (if truthy _ then _ else _)) eqn:Ht.
  - intros ->. by eexists.
  - intros _. by eexists.
Qed.

End SortRecords.

(** ** The run: cutoff, filter, sort *)

Section Pipeline.
Context `{RT : PyRuntime}.

Lemma main_filtered_inv now days recs out :
  main_filtered now days recs = Ok out ->
  exists cutoff,
    cutoff_of now days = Ok cutoff
    /\ Forall (fun r => is_Ok (keep cutoff r)) recs
    /\ sort_records (filter (fun r => kept cutoff r = true) recs) = Ok out.
Proof.
  unfold main_filtered.
  intros (cutoff & Hc & (filtered & Hf & Hs)%bind_Ok_inv)%bind_Ok_inv.
  apply filter_loop_inv in Hf as [HF ->]. by exists cutoff.
Qed.

Lemma kept_sort_key cutoff recs :
  Forall (fun r => is_Ok (sort_key r)) (filter (fun r => kept cutoff r = true) recs).
Proof.
  apply Forall_forall. intros r [Hk _]%list_elem_of_filter.
  apply (keep_sort_key cutoff). unfold kept in Hk.
  destruct (keep cutoff r) as [[]|]; done.
Qed.

(** The run up to the sort succeeds as soon as the cutoff exists and no
    record makes the loop raise. *)
Lemma main_filtered_Ok now days cutoff recs :
  cutoff_of now days = Ok cutoff ->
  Forall (fun r => is_Ok (keep cutoff r)) recs ->
  main_filtered now days recs
  = Ok (map snd (sort_keyed (decorate (filter (fun r => kept cutoff r = true) recs)))).
Proof.
  intros Hc HF. unfold main_filtered. rewrite Hc. simpl.
  rewrite (filter_loop_Ok _ _ _ HF). simpl.
  apply sort_records_Ok, kept_sort_key.
Qed.

Lemma main_filtered_total now days cutoff recs :
  cutoff_of now days = Ok cutoff ->
  Forall (fun r => text_or_falsy (dict_get r "country" JNull) = true
                   /\ text_or_falsy (date_s r) = true) recs ->
  is_Ok (main_filtered now days recs).
Proof.
  intros Hc HF. eexists. apply (main_filtered_Ok _ _ _ _ Hc).
  eapply Forall_impl; [exact HF|]. intros r [? ?]. by apply keep_total.
Qed.

Lemma main_filtered_skip now days l1 rec l2 :
  (forall cutoff, keep cutoff rec = Ok false) ->
  main_filtered now days (l1 ++ rec :: l2) = main_filtered now days (l1 ++ l2).
Proof.
  intros Hk. unfold main_filtered.
  destruct (cutoff_of now days) as [cutoff|]; simpl; [|done].
  by rewrite filter_loop_skip.
Qed.

Lemma main_filtered_elem now days cutoff recs out r :
  cutoff_of now days = Ok cutoff ->
  main_filtered now days recs = Ok out ->
  r ∈ out <-> r ∈ recs /\ kept cutoff r = true.
Proof.
  intros Hc (cutoff' & Hc' & _ & Hs)%main_filtered_inv.
  assert (cutoff' = cutoff) as -> by congruence.
  apply sort_records_spec in Hs as (Hp & _).
  rewrite Hp, list_elem_of_filter. tauto.
Qed.

Lemma main_filtered_dropped now days recs out r :
  (forall cutoff, keep cutoff r = Ok false) ->
  main_filtered now days recs = Ok out -> r ∉ out.
Proof.
  intros Hk Hm Hin.
  pose proof Hm as (cutoff & Hc & _)%main_filtered_inv.
  apply (main_filtered_elem _ _ _ _ _ r Hc) in Hm.
  apply Hm in Hin as [_ Hin]. unfold kept in Hin. by rewrite Hk in Hin.
Qed.

(** C1. A record with a US country and a parsable reference date is kept
    exactly when that date is not earlier than the cutoff, now minus the
    lookback window: a date equal to the cutoff is kept, an earlier one is
    dropped. *)
Theorem cutoff_inclusive (now days cutoff : Z) (rec : record) (c : pystr) (dt : utc_time) :
  cutoff_of now days = Ok cutoff ->
  country_upper rec = Ok c -> c ∈ US_NAMES ->
  parse_date (date_s rec) = Ok (Some dt) ->
  cutoff = now - days * US_PER_DAY
  /\ keep cutoff rec = Ok (bool_decide (cutoff <= dt))
  /\ (dt = cutoff -> keep cutoff rec = Ok true)
  /\ (dt < cutoff -> keep cutoff rec = Ok false)
  /\ (forall recs out, main_filtered now days recs = Ok out -> rec ∈ recs ->
        (rec ∈ out <-> cutoff <= dt)).
Proof.
  intros Hc Hcountry Hus Hdt.
  assert (keep cutoff rec = Ok (bool_decide (cutoff <= dt))) as Hk.
  { rewrite (keep_us _ _ _ Hcountry Hus), Hdt. simpl.
    destruct (dt <? cutoff) eqn:Hlt.
    - by rewrite bool_decide_eq_false_2 by lia.
    - by rewrite bool_decide_eq_true_2 by lia. }
  split; [by apply cutoff_of_Ok|]. split; [done|].
  split; [intros ->; rewrite Hk; by rewrite bool_decide_eq_true_2 by lia|].
  split; [intros Hlt; rewrite Hk; by rewrite bool_decide_eq_false_2 by lia|].
  intros recs out Hm Hin.
  rewrite (main_filtered_elem _ _ _ _ _ rec Hc Hm).
  unfold kept. rewrite Hk. rewrite bool_decide_eq_true. tauto.
Qed.

(** C2. The reference date is the normalized value of [discovered], else
    [attackdate], else [date]; a record whose reference date is absent or
    does not parse is skipped by the loop without an error, and the run is
    the same as without the record. *)
Theorem unparsable_date_dropped (rec : record) :
  parse_date (date_s rec) = reference_date_spec rec
  /\ (rec !! "discovered" = None -> rec !! "attackdate" = None ->
      rec !! "date" = None -> parse_date (date_s rec) = Ok None)
  /\ (forall c, country_upper rec = Ok c -> parse_date (date_s rec) = Ok None ->
        (forall cutoff, keep cutoff rec = Ok false)
        /\ (forall now days l1 l2,
              main_filtered now days (l1 ++ rec :: l2)
              = main_filtered now days (l1 ++ l2))
        /\ (forall now days recs out,
              main_filtered now days recs = Ok out -> rec ∉ out)).
Proof.
  split; [apply date_s_refines|]. split.
  { intros Hd Ha Hg. unfold date_s, dict_get. by rewrite Hd, Ha, Hg. }
  intros c Hc Hdt.
  assert (forall cutoff, keep cutoff rec = Ok false) as Hk.
  { intros cutoff. unfold keep. rewrite Hc. simpl.
    destruct (negb _); [done|]. by rewrite Hdt. }
  split; [done|]. split.
  - intros. by apply main_filtered_skip.
  - intros. by eapply main_filtered_dropped.
Qed.

(** C4. A record whose upper-cased [country] is none of "US",
    "UNITED STATES", "USA" (an absent country among them) is skipped
    whatever its other fields hold, and the run is the same as without it; a
    record whose upper-cased country is one of the three goes on to the date
    test. *)
Theorem non_us_excluded (rec : record) :
  (forall c, country_upper rec = Ok c -> c ∉ US_NAMES ->
     (forall cutoff, keep cutoff rec = Ok false)
     /\ (forall cutoff k v, k ≠ "country" -> keep cutoff (<[k := v]> rec) = Ok false)
     /\ (forall now days l1 l2,
           main_filtered now days (l1 ++ rec :: l2)
           = main_filtered now days (l1 ++ l2))
     /\ (forall now days recs out,
           main_filtered now days recs = Ok out -> rec ∉ out))
  /\ (rec !! "country" = None -> country_upper rec = Ok [] /\ [] ∉ US_NAMES)
  /\ (forall s, rec !! "country" = Some (JStr s) -> country_upper rec = Ok (str_upper s))
  /\ (forall c, country_upper rec = Ok c -> c ∈ US_NAMES ->
        forall cutoff,
          keep cutoff rec
          = (dt ← parse_date (date_s rec);
             match dt with
             | None => mret false
             | Some dt => if dt <? cutoff then mret false else mret true
             end)).
Proof.
  split; [|split; [|split]].
  - intros c Hc Hn.
    assert (forall cutoff, keep cutoff rec = Ok false) as Hk
      by (intros; by eapply keep_non_us).
    split; [done|]. split.
    { intros cutoff k v Hkv. eapply keep_non_us; [|done].
      by rewrite country_upper_insert. }
    split.
    + intros. by apply main_filtered_skip.
    + intros. by eapply main_filtered_dropped.
  - intros Hn. split.
    + apply country_upper_absent. unfold dict_get. by rewrite Hn.
    + refine (bool_decide_unpack _ _). by vm_compute.
  - intros s Hs. unfold country_upper, dict_get, py_or. rewrite Hs.
    by destruct s.
  - intros c Hc Hus cutoff. by apply (keep_us _ _ c).
Qed.

Lemma sorted_keys_Ok (cutoff : utc_time) (recs out : list record) :
  out ≡ₚ filter (fun r => kept cutoff r = true) recs ->
  Forall (fun r => sort_key r = Ok (key_of r)) out.
Proof.
  intros ->. eapply Forall_impl; [apply (kept_sort_key cutoff)|].
  intros r [k Hk]. simpl. by rewrite (key_of_Ok _ _ Hk).
Qed.

(** C3. The kept records are sorted ascending by the normalized date of
    [discovered], else [attackdate]; [date] plays no part in the key; a
    record without a parsable key takes the largest datetime as its key, so
    no record sorts after it by key; records of equal key keep their input
    order, and the sorted list is the only stable ascending arrangement.
    This holds of the sort applied to the loop's result, of the list
    [filtered] that [main] goes on with, and of the order of the rows it
    hands to the writer. *)
Theorem sorted_by_discovery (cutoff : utc_time) (recs filtered : list record) :
  (forall r, sort_key r = sort_key_spec r)
  /\ (forall r v, sort_key (<["date" := v]> r) = sort_key r)
  /\ (forall r t, sort_key r = Ok t -> t <= DATETIME_MAX)
  /\ (forall r,
        parse_date (py_or (py_or (dict_get r "discovered" JNull)
                                 (dict_get r "attackdate" JNull)) EMPTY) = Ok None ->
        sort_key r = Ok DATETIME_MAX)
  /\ (filter_loop cutoff recs [] = Ok filtered ->
      exists out,
        sort_records filtered = Ok out
        /\ out ≡ₚ filtered
        /\ Forall (fun r => sort_key r = Ok (key_of r)) out
        /\ StronglySorted key_le out
        /\ (forall k, filter (fun r => key_of r = k) out
                      = filter (fun r => key_of r = k) filtered)
        /\ (forall out', StronglySorted key_le out' ->
              (forall k, filter (fun r => key_of r = k) out'
                         = filter (fun r => key_of r = k) filtered) ->
              out' = out))
  /\ (forall now days out,
        main_filtered now days recs = Ok out ->
        exists c kept_in_order,
          cutoff_of now days = Ok c
          /\ kept_in_order = filter (fun r => kept c r = true) recs
          /\ out ≡ₚ kept_in_order
          /\ Forall (fun r => sort_key r = Ok (key_of r)) out
          /\ StronglySorted key_le out
          /\ (forall k, filter (fun r => key_of r = k) out
                        = filter (fun r => key_of r = k) kept_in_order)
          /\ (forall out', StronglySorted key_le out' ->
                (forall k, filter (fun r => key_of r = k) out'
                           = filter (fun r => key_of r = k) kept_in_order) ->
                out' = out))
  /\ (forall now days rows,
        main now days recs = Ok rows ->
        exists out,
          main_filtered now days recs = Ok out
          /\ StronglySorted key_le out
          /\ Forall2 (fun r row => flatten_record r = Ok row) out rows).
Proof.
  split; [apply sort_key_refines|].
  split; [apply sort_key_ignores_date|].
  split; [intros r t Ht; by apply sort_key_range in Ht as [_ ?]|].
  split; [intros r Hr; unfold sort_key; by rewrite Hr|].
  split; [|split].
  - intros (_ & ->)%filter_loop_inv. simpl.
    pose proof (sort_records_Ok _ (kept_sort_key cutoff recs)) as Hs.
    eexists. split; [exact Hs|].
    destruct (sort_records_spec _ _ Hs) as (Hp & Hsorted & Hstable & Huniq).
    split; [done|]. split; [|done]. by apply (sorted_keys_Ok cutoff recs).
  - intros now days out (c & Hc & _ & Hs)%main_filtered_inv.
    destruct (sort_records_spec _ _ Hs) as (Hp & Hsorted & Hstable & Huniq).
    exists c, (filter (fun r => kept c r = true) recs).
    split; [done|]. split; [done|]. split; [done|].
    split; [by apply (sorted_keys_Ok c recs)|]. done.
  - intros now days rows. unfold main.
    intros (out & Hout & Hrows)%bind_Ok_inv.
    exists out. split; [done|]. split; [|by apply mapM_Ok_inv].
    apply main_filtered_inv in Hout as (c & _ & _ & Hs).
    by destruct (sort_records_spec _ _ Hs) as (_ & Hsorted & _).
Qed.

End Pipeline.

(** ** The theorems at concrete records *)

Lemma us_names_US : lit "US" ∈ US_NAMES.
Proof. refine (bool_decide_unpack _ _). by vm_compute. Qed.

Lemma cutoff_inclusive_witness :
  keep (RT := ref_runtime) JAN_1
    (sample "us" [("discovered", "2025-01-01T00:00:00Z")]) = Ok true
  /\ keep (RT := ref_runtime) JAN_1
       (sample "us" [("discovered", "2024-12-31T23:59:59.999999Z")]) = Ok false.
Proof.
  split.
  - apply (proj1 (proj2 (proj2
      (cutoff_inclusive (RT := ref_runtime) JAN_2 1 JAN_1
         (sample "us" [("discovered", "2025-01-01T00:00:00Z")]) (lit "US") JAN_1
         eq_refl eq_refl us_names_US eq_refl)))).
    reflexivity.
  - apply (proj1 (proj2 (proj2 (proj2
      (cutoff_inclusive (RT := ref_runtime) JAN_2 1 JAN_1
         (sample "us" [("discovered", "2024-12-31T23:59:59.999999Z")]) (lit "US")
         (JAN_1 - 1) eq_refl eq_refl us_names_US eq_refl))))).
    reflexivity.
Defined.

Lemma unparsable_date_dropped_witness :
  keep (RT := ref_runtime) JAN_1 (sample "US" [("discovered", "yesterday")]) = Ok false
  /\ keep (RT := ref_runtime) JAN_1 (sample "US" []) = Ok false.
Proof.
  split.
  - apply (proj1 (proj2 (proj2 (unparsable_date_dropped (RT := ref_runtime)
             (sample "US" [("discovered", "yesterday")]))) (lit "US") eq_refl eq_refl)).
  - apply (proj1 (proj2 (proj2 (unparsable_date_dropped (RT := ref_runtime)
             (sample "US" []))) (lit "US") eq_refl eq_refl)).
Defined.

Lemma non_us_excluded_witness :
  keep (RT := ref_runtime) 0 (sample "de" [("discovered", "2025-01-01T00:00:00Z")])
  = Ok false.
Proof.
  apply (proj1 (proj1 (non_us_excluded (RT := ref_runtime)
           (sample "de" [("discovered", "2025-01-01T00:00:00Z")])) (lit "DE") eq_refl
           ltac:(refine (bool_decide_unpack _ _); by vm_compute))).
Defined.

Lemma sorted_by_discovery_witness :
  (exists out,
     sort_records (RT := ref_runtime) [r_jan3; r_date_only; r_jan1; r_jan3_attack] = Ok out
     /\ StronglySorted (key_le (RT := ref_runtime)) out)
  /\ main_filtered (RT := ref_runtime) JAN_4 3650
        [r_jan3; r_date_only; r_jan1; r_jan3_attack]
      = Ok [r_jan1; r_jan3; r_jan3_attack; r_date_only]
  /\ StronglySorted (key_le (RT := ref_runtime))
        [r_jan1; r_jan3; r_jan3_attack; r_date_only].
Proof.
  split; [|split; [reflexivity|]].
  - destruct (proj1 (proj2 (proj2 (proj2 (proj2
      (sorted_by_discovery (RT := ref_runtime) JAN_1
         [r_jan3; r_date_only; r_jan1; r_jan3_attack]
         [r_jan3; r_date_only; r_jan1; r_jan3_attack]))))))
      as (out & Hout & _ & _ & Hs & _).
    + reflexivity.
    + by exists out.
  - destruct (proj1 (proj2 (proj2 (proj2 (proj2 (proj2
      (sorted_by_discovery (RT := ref_runtime) JAN_1
         [r_jan3; r_date_only; r_jan1; r_jan3_attack] []))))))
      JAN_4 3650 [r_jan1; r_jan3; r_jan3_attack; r_date_only] eq_refl)
      as (c & kept_in_order & _ & _ & _ & _ & Hs & _).
    exact Hs.
Defined.

(** The same list, evaluated: oldest first, the two records of 3 January in
    their input order, the record with no [discovered] or [attackdate]
    last. *)
Example sort_records_sample :
  sort_records (RT := ref_runtime) [r_jan3; r_date_only; r_jan1; r_jan3_attack]
  = Ok [r_jan1; r_jan3; r_jan3_attack; r_date_only].
Proof. reflexivity. Qed.

(** The end-to-end example of the specification: one US record discovered
    on 2025-01-01 and a window of 3650 days give one row. *)
Example main_sample :
  map (fun row : row => (row !! "id_base64", row !! "country", row !! "duplicates_count"))
  <$> main (RT := ref_runtime) JAN_2 3650
        [ <["country" := JStr (lit "US")]>
            (<["discovered" := JStr (lit "2025-01-01T00:00:00Z")]>
               {["url" := JStr (lit "https://x/r/id1")]}) ]
  = Ok [(Some (JStr (lit "id1")), Some (JStr (lit "US")), Some (JInt 0))].
Proof. by vm_compute. Qed.

(** * Further properties of the run *)

Section MorePipeline.
Context `{RT : PyRuntime}.

Lemma mapM_Raise_inv {A B} (f : A -> result B) l e :
  mapM f l = Raise e -> exists x, x ∈ l /\ f x = Raise e.
Proof.
  induction l as [|x l IH]; simpl; [done|].
  destruct (f x) as [y|e'] eqn:Hx; simpl.
  - destruct (mapM f l) as [k|e'']; simpl; [done|].
    intros [= ->]. destruct IH as (x' & Hin & Hx'); [done|].
    exists x'. split; [by right | done].
  - intros [= ->]. exists x. split; [by left | done].
Qed.

Lemma mapM_Ok_Forall {A B} (f : A -> result B) l :
  Forall (fun x => exists y, f x = Ok y) l -> exists ys, mapM f l = Ok ys.
Proof.
  induction 1 as [|x l [y Hy] _ [ys IH]]; simpl; [by eexists|].
  rewrite Hy, IH. by eexists.
Qed.

Lemma mapM_length {A B} (f : A -> result B) l ys :
  mapM f l = Ok ys -> length ys = length l.
Proof. intros H%mapM_Ok_inv. symmetry. by eapply Forall2_length. Qed.

Lemma filter_loop_Raise cutoff recs acc e :
  filter_loop cutoff recs acc = Raise e ->
  exists r, r ∈ recs /\ keep cutoff r = Raise e.
Proof.
  revert acc. induction recs as [|r recs IH]; intros acc; simpl; [done|].
  destruct (keep cutoff r) as [b|e'] eqn:Hk; simpl.
  - intros (r' & Hin & Hr')%IH. exists r'. split; [by right | done].
  - intros [= ->]. exists r. split; [by left | done].
Qed.

Lemma parse_date_Raise v e :
  parse_date v = Raise e -> e = AttributeError /\ text_or_falsy v = false.
Proof.
  unfold parse_date. destruct (truthy v) eqn:Ht; cbn [negb]; [|done].
  destruct v; simpl in *; try (intros [= <-]; by rewrite ?Ht).
  by destruct (iso_attempt _).
Qed.

Lemma country_upper_Raise rec e :
  country_upper rec = Raise e ->
  e = AttributeError /\ text_or_falsy (dict_get rec "country" JNull) = false.
Proof.
  unfold country_upper, py_or.
  destruct (truthy (dict_get rec "country" JNull)) eqn:Ht; [|done].
  destruct (dict_get rec "country" JNull); simpl in *; try done;
    intros [= <-]; by rewrite ?Ht.
Qed.

Lemma keep_Raise cutoff rec e :
  keep cutoff rec = Raise e ->
  e = AttributeError
  /\ (text_or_falsy (dict_get rec "country" JNull) = false
      \/ text_or_falsy (date_s rec) = false).
Proof.
  unfold keep. destruct (country_upper rec) as [c|e'] eqn:Hc; simpl.
  - destruct (negb _); [done|].
    destruct (parse_date (date_s rec)) as [dt|e'] eqn:Hdt; simpl.
    + destruct dt as [dt|]; [|done]. by destruct (dt <? cutoff).
    + intros [= ->]. apply parse_date_Raise in Hdt as [-> ?]. auto.
  - intros [= ->]. apply country_upper_Raise in Hc as [-> ?]. auto.
Qed.

Lemma flatten_record_Raise rec e :
  flatten_record rec = Raise e ->
  e = TypeError
  /\ truthy (dict_get rec "duplicates" JNull) = true
  /\ has_len (dict_get rec "duplicates" JNull) = false.
Proof.
  intros He.
  assert (~ is_Ok (flatten_record rec)) as Hn by (intros [? ?]; congruence).
  rewrite flatten_record_Ok_iff in Hn.
  pose proof (flatten_record_len rec) as H.
  destruct (py_len (duplicates_arg rec)) as [n|e'] eqn:E.
  { destruct H as (out & H & _). congruence. }
  assert (e' = e) as -> by congruence.
  split; [clear -E; destruct (duplicates_arg rec); simpl in E; congruence|].
  destruct (truthy _); destruct (has_len _); tauto.
Qed.

Lemma keep_true_inv cutoff rec :
  keep cutoff rec = Ok true ->
  exists c dt,
    country_upper rec = Ok c /\ c ∈ US_NAMES
    /\ parse_date (date_s rec) = Ok (Some dt) /\ cutoff <= dt.
Proof.
  unfold keep. intros (c & Hc & H)%bind_Ok_inv.
  case_bool_decide as Hus; simpl in H; [|done].
  apply bind_Ok_inv in H as (dt & Hdt & H).
  destruct dt as [dt|]; [|done].
  destruct (dt <? cutoff) eqn:Hlt; [done|].
  exists c, dt. repeat split; try done. lia.
Qed.

Lemma keep_mono cutoff cutoff' rec :
  cutoff' <= cutoff -> keep cutoff rec = Ok true -> keep cutoff' rec = Ok true.
Proof.
  intros Hle (c & dt & Hc & Hus & Hdt & Hge)%keep_true_inv.
  rewrite (keep_us _ _ _ Hc Hus), Hdt. simpl.
  destruct (dt <? cutoff') eqn:Hlt; [lia|done].
Qed.

Lemma filter_length_mono {A} (P Q : A -> Prop)
    `{!forall x, Decision (P x)} `{!forall x, Decision (Q x)} (l : list A) :
  (forall x, P x -> Q x) -> (length (filter P l) <= length (filter Q l))%nat.
Proof.
  intros HPQ. induction l as [|x l IH]; simpl; [done|].
  rewrite !filter_cons. repeat case_decide; simpl; try lia.
  exfalso. auto.
Qed.

(** X1. Widening the lookback window never loses a record: every record of
    the filtered list for [days] is in the filtered list for a larger
    window, which is at least as long. *)
Theorem wider_window_keeps_more (now days days' : Z) (recs out out' : list record) :
  days <= days' ->
  main_filtered now days recs = Ok out ->
  main_filtered now days' recs = Ok out' ->
  (forall r, r ∈ out -> r ∈ out') /\ (length out <= length out')%nat.
Proof.
  intros Hd (c & Hc & _ & Hs)%main_filtered_inv (c' & Hc' & _ & Hs')%main_filtered_inv.
  apply cutoff_of_Ok in Hc, Hc'.
  assert (c' <= c) as Hle by (unfold US_PER_DAY in *; lia).
  assert (forall r, kept c r = true -> kept c' r = true) as Hk.
  { intros r. unfold kept.
    destruct (keep c r) as [[]|] eqn:E; try done.
    by rewrite (keep_mono _ _ _ Hle E). }
  apply sort_records_spec in Hs as (Hp & _).
  apply sort_records_spec in Hs' as (Hp' & _).
  split.
  - intros r. rewrite Hp, Hp', !list_elem_of_filter. intros [? ?]. auto.
  - rewrite Hp, Hp'. by apply filter_length_mono.
Qed.

(** X2. The key a kept record is sorted by: its reference date (not before
    the cutoff) when [discovered] or [attackdate] holds a value; the largest
    datetime when the record was kept through [date] alone, whatever that
    date is. *)
Theorem kept_record_key (cutoff : utc_time) (r : record) :
  keep cutoff r = Ok true ->
  (truthy (py_or (dict_get r "discovered" JNull) (dict_get r "attackdate" JNull)) = true ->
     exists dt, parse_date (date_s r) = Ok (Some dt)
                /\ sort_key r = Ok dt /\ cutoff <= dt)
  /\ (truthy (py_or (dict_get r "discovered" JNull) (dict_get r "attackdate" JNull)) = false ->
        sort_key r = Ok DATETIME_MAX
        /\ exists dt, parse_date (dict_get r "date" JNull) = Ok (Some dt) /\ cutoff <= dt).
Proof.
  intros (c & dt & _ & _ & Hdt & Hge)%keep_true_inv.
  unfold sort_key, date_s in *.
  set (P := py_or (dict_get r "discovered" JNull) (dict_get r "attackdate" JNull)) in *.
  unfold py_or in Hdt |- *.
  split; intros Ht; rewrite Ht in *.
  - exists dt. by rewrite Hdt.
  - split; [done|]. by exists dt.
Qed.

(** X3. The rows of a successful run are the flattened records of the
    sorted filtered list, one row per record and in its order; there are no
    more rows than input records. *)
Theorem main_rows_in_order (now days : Z) (recs : list record) (rows : list row) :
  main now days recs = Ok rows ->
  exists out,
    main_filtered now days recs = Ok out
    /\ Forall2 (fun r row => flatten_record r = Ok row) out rows
    /\ (length rows <= length recs)%nat.
Proof.
  unfold main. intros (out & Hout & Hrows)%bind_Ok_inv.
  exists out. split; [done|]. split; [by apply mapM_Ok_inv|].
  rewrite (mapM_length _ _ _ Hrows).
  apply main_filtered_inv in Hout as (c & _ & _ & (Hp & _)%sort_records_spec).
  rewrite Hp. apply length_filter.
Qed.

(** X4. What can make the run fail: the cutoff leaving the datetime range
    ([OverflowError]); a record whose country or reference field holds
    something that is neither a string nor falsy ([AttributeError], for any
    record of the input, kept or not); a kept record whose [duplicates] is
    truthy and has no length ([TypeError]). *)
Theorem main_failure_causes (now days : Z) (recs : list record) (e : exn) :
  main now days recs = Raise e ->
  (e = OverflowError /\ cutoff_of now days = Raise OverflowError)
  \/ (e = AttributeError
      /\ exists cutoff r,
           cutoff_of now days = Ok cutoff /\ r ∈ recs
           /\ keep cutoff r = Raise AttributeError
           /\ (text_or_falsy (dict_get r "country" JNull) = false
               \/ text_or_falsy (date_s r) = false))
  \/ (e = TypeError
      /\ exists cutoff r,
           cutoff_of now days = Ok cutoff /\ r ∈ recs
           /\ keep cutoff r = Ok true
           /\ flatten_record r = Raise TypeError
           /\ truthy (dict_get r "duplicates" JNull) = true
           /\ has_len (dict_get r "duplicates" JNull) = false).
Proof.
  unfold main, main_filtered.
  destruct (cutoff_of now days) as [cutoff|e0] eqn:Hc; simpl.
  2:{ intros [= ->]. left.
      assert (e = OverflowError) as ->; [|done].
      unfold cutoff_of in Hc. destruct (_ <? _); [congruence|].
      destruct (in_datetime_range _); congruence. }
  destruct (filter_loop cutoff recs []) as [filtered|e0] eqn:Hf; simpl.
  2:{ intros [= ->]. right. left.
      apply filter_loop_Raise in Hf as (r & Hin & Hr).
      destruct (keep_Raise _ _ _ Hr) as [-> Hcause].
      split; [done|]. by exists cutoff, r. }
  apply filter_loop_inv in Hf as [_ ->]. simpl.
  rewrite (sort_records_Ok _ (kept_sort_key cutoff recs)). simpl.
  intros (r & Hin & Hr)%mapM_Raise_inv. right. right.
  destruct (flatten_record_Raise _ _ Hr) as (-> & Ht & Hl).
  split; [done|]. exists cutoff, r.
  assert (r ∈ filter (fun r => kept cutoff r = true) recs) as Hin'.
  { apply list_elem_of_fmap in Hin as ([k r'] & -> & Hin).
    rewrite sort_keyed_perm in Hin.
    apply list_elem_of_fmap in Hin as (r'' & [= -> ->] & Hin). done. }
  apply list_elem_of_filter in Hin' as [Hk Hin'].
  repeat split; try done.
  unfold kept in Hk. by destruct (keep cutoff r) as [[]|].
Qed.

Lemma sort_records_fixed (l : list record) :
  Forall (fun r => is_Ok (sort_key r)) l ->
  StronglySorted key_le l -> sort_records l = Ok l.
Proof.
  intros HF Hs. pose proof (sort_records_Ok _ HF) as Hout.
  rewrite Hout. f_equal. symmetry.
  by apply (sort_records_spec _ _ Hout).
Qed.

(** X6. Sorting does nothing to a list that is already ascending by key; in
    particular sorting the sorted list again returns it. *)
Theorem sort_keeps_sorted (l : list record) :
  Forall (fun r => is_Ok (sort_key r)) l ->
  (StronglySorted key_le l -> sort_records l = Ok l)
  /\ (forall out, sort_records l = Ok out -> sort_records out = Ok out).
Proof.
  intros HF. split; [by apply sort_records_fixed|].
  intros out Hout. apply sort_records_spec in Hout as (Hp & Hs & _).
  apply sort_records_fixed; [by rewrite Hp | done].
Qed.

Lemma main_filtered_Raise_inv now days cutoff recs e :
  cutoff_of now days = Ok cutoff ->
  main_filtered now days recs = Raise e ->
  e = AttributeError /\ exists r, r ∈ recs /\ keep cutoff r = Raise AttributeError.
Proof.
  intros Hc. unfold main_filtered. rewrite Hc. simpl.
  destruct (filter_loop cutoff recs []) as [filtered|e0] eqn:Hf; simpl.
  - apply filter_loop_inv in Hf as [_ ->]. rewrite app_nil_l.
    by rewrite (sort_records_Ok _ (kept_sort_key cutoff recs)).
  - intros [= ->]. apply filter_loop_Raise in Hf as (r & Hin & Hr).
    destruct (keep_Raise _ _ _ Hr) as [-> _]. split; [done|]. by exists r.
Qed.

Lemma main_filtered_Raise_elem now days cutoff recs r e :
  cutoff_of now days = Ok cutoff ->
  r ∈ recs -> keep cutoff r = Raise e ->
  main_filtered now days recs = Raise AttributeError.
Proof.
  intros Hc Hin Hr.
  destruct (main_filtered now days recs) as [out|e'] eqn:Hm.
  - apply main_filtered_inv in Hm as (c & Hc' & HF & _).
    assert (c = cutoff) as -> by congruence.
    rewrite Forall_forall in HF. destruct (HF r Hin) as [b Hb]. congruence.
  - by destruct (main_filtered_Raise_inv _ _ _ _ _ Hc Hm) as [-> _].
Qed.

(** X19. The order of the fetched records decides nothing but the order
    among records of equal key: for a rearranged input the filter fails in
    the same way or, when it returns, returns a rearrangement of the same
    records. *)
Theorem input_order_irrelevant (now days : Z) (recs recs' : list record) :
  recs ≡ₚ recs' ->
  (forall e, main_filtered now days recs = Raise e ->
             main_filtered now days recs' = Raise e)
  /\ (forall out, main_filtered now days recs = Ok out ->
         exists out', main_filtered now days recs' = Ok out' /\ out ≡ₚ out').
Proof.
  intros Hp. split.
  - intros e Hm. destruct (cutoff_of now days) as [cutoff|e0] eqn:Hc.
    + destruct (main_filtered_Raise_inv _ _ _ _ _ Hc Hm) as (-> & r & Hin & Hr).
      rewrite Hp in Hin. by eapply main_filtered_Raise_elem.
    + unfold main_filtered in *. rewrite Hc in *. done.
  - intros out (cutoff & Hc & HF & Hs)%main_filtered_inv.
    rewrite Hp in HF. eexists. split; [by apply main_filtered_Ok|].
    apply sort_records_spec in Hs as (Hout & _).
    by rewrite Hout, sort_keyed_perm, snd_decorate, Hp.
Qed.

Lemma filter_all {A} (P : A -> Prop) `{!forall x, Decision (P x)} (l : list A) :
  Forall P l -> filter P l = l.
Proof.
  induction 1 as [|x l Hx _ IH]; [done|].
  by rewrite filter_cons_True, IH.
Qed.

(** X20. The filtered list is a fixed point of the run: filtering and
    sorting it again with the same clock and window returns it as it is. *)
Theorem rerun_on_output (now days : Z) (recs out : list record) :
  main_filtered now days recs = Ok out ->
  main_filtered now days out = Ok out.
Proof.
  intros (cutoff & Hc & _ & Hs)%main_filtered_inv.
  pose proof (kept_sort_key cutoff recs) as Hkeys.
  apply sort_records_spec in Hs as (Hp & Hsorted & _).
  assert (Forall (fun r => kept cutoff r = true) out) as Hkept.
  { rewrite Hp. apply Forall_forall. by intros r [? _]%list_elem_of_filter. }
  assert (Forall (fun r => is_Ok (keep cutoff r)) out) as Hok.
  { eapply Forall_impl; [exact Hkept|]. intros r Hr. unfold kept in Hr.
    destruct (keep cutoff r) as [b|]; [by exists b | done]. }
  rewrite (main_filtered_Ok _ _ _ _ Hc Hok), (filter_all _ _ Hkept).
  rewrite <- (sort_records_Ok out); [|by rewrite Hp].
  apply sort_records_fixed; [by rewrite Hp | done].
Qed.

End MorePipeline.

(** * Further properties of the record functions *)

(** ** [str.split] and [str.join] *)

Lemma str_split_no_sep sep s : sep ∉ s -> str_split sep s = [s].
Proof.
  induction s as [|c t IH]; [done|].
  intros [Hc Ht]%not_elem_of_cons. simpl.
  rewrite (proj2 (N.eqb_neq c sep)) by done. by rewrite IH.
Qed.

Lemma str_split_app_sep sep s t :
  sep ∉ s -> str_split sep (s ++ sep :: t) = s :: str_split sep t.
Proof.
  induction s as [|c s IH]; simpl.
  - intros _. by rewrite N.eqb_refl.
  - intros [Hc Hs]%not_elem_of_cons.
    rewrite (proj2 (N.eqb_neq c sep)) by done. by rewrite IH.
Qed.

Lemma str_split_segments sep s : Forall (fun seg => sep ∉ seg) (str_split sep s).
Proof.
  induction s as [|c t IH]; simpl.
  - repeat constructor. apply not_elem_of_nil.
  - destruct (c =? sep)%N eqn:Hc.
    + constructor; [apply not_elem_of_nil | done].
    + apply N.eqb_neq in Hc.
      destruct (str_split sep t) as [|seg segs].
      * repeat constructor.
        apply not_elem_of_cons. split; [congruence | apply not_elem_of_nil].
      * apply Forall_cons in IH as [Hseg Hsegs].
        constructor; [|done]. apply not_elem_of_cons. split; [congruence | done].
Qed.

Lemma str_split_join sep (l : list pystr) :
  l ≠ [] -> Forall (fun s => sep ∉ s) l -> str_split sep (str_join [sep] l) = l.
Proof.
  induction l as [|x l IH]; [done|]. intros _ [Hx Hl]%Forall_cons.
  destruct l as [|y l].
  - simpl. by apply str_split_no_sep.
  - change (str_join [sep] (x :: y :: l)) with (x ++ sep :: str_join [sep] (y :: l)).
    rewrite str_split_app_sep by done. by rewrite IH.
Qed.

(** The last segment of a text is what follows its last separator. *)
Lemma str_split_last_suffix sep s :
  exists init seg pre,
    str_split sep s = init ++ [seg]
    /\ s = pre ++ seg
    /\ ((init = [] /\ pre = []) \/ (init ≠ [] /\ exists p, pre = p ++ [sep])).
Proof.
  induction s as [|c t (init & seg & pre & Hsp & Hs & Hpre)]; simpl.
  - exists [], [], []. auto.
  - rewrite Hsp. destruct (c =? sep)%N eqn:Hc.
    + apply N.eqb_eq in Hc as ->.
      exists ([] :: init), seg, (sep :: pre). split; [done|].
      split; [by rewrite Hs|]. right. split; [done|].
      destruct Hpre as [[_ ->]|[_ [p ->]]]; [by exists [] | by exists (sep :: p)].
    + destruct Hpre as [[-> ->]|[Hinit [p ->]]].
      * exists [], (c :: seg), []. simpl. split; [done|]. split; [by rewrite Hs|]. auto.
      * destruct init as [|i0 init]; [done|].
        exists ((c :: i0) :: init), seg, (c :: p ++ [sep]).
        split; [done|]. split; [by rewrite Hs|].
        right. split; [done|]. by exists (c :: p).
Qed.

Section MoreRecord.
Context `{RT : PyRuntime}.

(** ** [extract_id_from_detail_url] *)

Lemma extract_id_str u :
  extract_id_from_detail_url (JStr u) = last_nonempty (str_split SLASH u).
Proof.
  destruct u as [|c u]; [done|].
  unfold extract_id_from_detail_url, url_last_segment, list_last_item.
  cbn [truthy negb]. by rewrite rstrip_split_last.
Qed.

Lemma last_nonempty_elem segs :
  last_nonempty segs = [] \/ last_nonempty segs ∈ segs.
Proof.
  unfold last_nonempty.
  destruct (last (filter _ segs)) as [x|] eqn:E; simpl; [|by left].
  right. apply last_Some_elem_of in E.
  by apply list_elem_of_filter in E as [_ ?].
Qed.

Lemma extract_id_no_slash url : SLASH ∉ extract_id_from_detail_url url.
Proof.
  assert (forall u, SLASH ∉ extract_id_from_detail_url (JStr u)) as Hstr.
  { intros u. rewrite extract_id_str.
    destruct (last_nonempty_elem (str_split SLASH u)) as [->|Hin];
      [apply not_elem_of_nil|].
    pose proof (str_split_segments SLASH u) as HF.
    rewrite Forall_forall in HF. by apply HF. }
  destruct url; try apply Hstr;
    unfold extract_id_from_detail_url, url_last_segment;
    destruct (negb _); apply not_elem_of_nil.
Qed.

Lemma extract_id_fixed u : SLASH ∉ u -> extract_id_from_detail_url (JStr u) = u.
Proof.
  intros Hu. rewrite extract_id_str, str_split_no_sep by done.
  unfold last_nonempty. destruct u as [|c u]; [done|].
  by rewrite filter_cons_True.
Qed.

(** X8. The id never holds a slash; taking the id of an id changes
    nothing; slashes added at the end of the URL do not change the id. *)
Theorem extract_id_normal_form (url : json) (u : pystr) (n : nat) :
  (SLASH ∉ extract_id_from_detail_url url)
  /\ extract_id_from_detail_url (JStr (extract_id_from_detail_url url))
     = extract_id_from_detail_url url
  /\ extract_id_from_detail_url (JStr (u ++ replicate n SLASH))
     = extract_id_from_detail_url (JStr u).
Proof.
  split; [apply extract_id_no_slash|].
  split; [apply extract_id_fixed, extract_id_no_slash|].
  rewrite !extract_id_str. induction n as [|n IH]; [by rewrite app_nil_r|].
  rewrite replicate_S_end, app_assoc, str_split_snoc_sep, last_nonempty_snoc_nil.
  exact IH.
Qed.

(** X9. The id is a piece of the URL text: what stands between the last
    slash that is followed by something other than slashes (or the start of
    the text) and the slashes that end the text. *)
Theorem extract_id_occurs_in_url (u : pystr) :
  exists pre n,
    u = pre ++ extract_id_from_detail_url (JStr u) ++ replicate n SLASH
    /\ (pre = [] \/ exists p, pre = p ++ [SLASH]).
Proof.
  rewrite extract_id_str.
  induction u as [|c s (pre & n & Hs & Hpre)] using rev_ind.
  - exists [], 0%nat. auto.
  - destruct (decide (c = SLASH)) as [->|Hc].
    + rewrite str_split_snoc_sep, last_nonempty_snoc_nil.
      exists pre, (S n). split; [|done].
      rewrite replicate_S_end, !app_assoc. f_equal. by rewrite <- !app_assoc.
    + destruct (str_split_snoc_other SLASH s c Hc) as (init & seg & E1 & ->).
      destruct (str_split_last_suffix SLASH s) as (init' & seg' & pre' & E1' & Hs' & Hpre').
      rewrite E1 in E1'. apply app_inj_tail in E1' as [<- <-].
      rewrite last_nonempty_snoc by (by destruct seg).
      exists pre', 0%nat. simpl. rewrite app_nil_r. split.
      * by rewrite Hs', <- app_assoc.
      * destruct Hpre' as [[_ ->]|[_ ?]]; auto.
Qed.

(** ** [parse_date] and surrounding whitespace *)

Lemma lstrip_of_space_app p l s : forallb p l = true -> lstrip_of p (l ++ s) = lstrip_of p s.
Proof.
  induction l as [|c l IH]; simpl; [done|].
  intros [-> Hl]%andb_true_iff. by apply IH.
Qed.

Lemma rstrip_of_app_space p s r : forallb p r = true -> rstrip_of p (s ++ r) = rstrip_of p s.
Proof.
  induction r as [|c r IH] using rev_ind; [by rewrite app_nil_r|].
  rewrite forallb_app. simpl. intros [Hr [Hc _]%andb_true_iff]%andb_true_iff.
  by rewrite app_assoc, rstrip_of_snoc, Hc, IH.
Qed.

Lemma lstrip_of_app_keep p s r :
  forallb p s = false -> lstrip_of p (s ++ r) = lstrip_of p s ++ r.
Proof.
  induction s as [|c s IH]; simpl; [done|].
  destruct (p c); simpl; [exact IH | done].
Qed.

Lemma str_strip_pad l s r :
  forallb is_space l = true -> forallb is_space r = true ->
  str_strip (l ++ s ++ r) = str_strip s.
Proof.
  intros Hl Hr. unfold str_strip. rewrite lstrip_of_space_app by done.
  destruct (forallb is_space s) eqn:Hs.
  - rewrite !lstrip_of_all; [done|done|].
    rewrite forallb_app. by rewrite Hs, Hr.
  - rewrite lstrip_of_app_keep by done. by apply rstrip_of_app_space.
Qed.

(** X10. Whitespace around a date text does not matter: the text with
    whitespace (in the sense of [str.strip], Unicode spaces included) before
    and after it is normalized to the same result. *)
Theorem parse_date_ignores_padding (l s r : pystr) :
  forallb is_space l = true -> forallb is_space r = true ->
  parse_date (JStr (l ++ s ++ r)) = parse_date (JStr s).
Proof.
  intros Hl Hr.
  change (JStr (l ++ s ++ r)) with (of_optional (Some (l ++ s ++ r))).
  change (JStr s) with (of_optional (Some s)).
  rewrite !parse_date_refines. unfold parse_date_spec, normalized_text.
  rewrite str_strip_pad by done.
  rewrite !forallb_app, Hl, Hr. simpl. by rewrite andb_true_r.
Qed.

(** ** [flatten_record] *)

(** X11. [flatten_record] reads thirteen keys of the record and nothing
    else: setting or removing any other key, the [date] that the filter
    reads among them, leaves the result as it is. *)
Theorem flatten_reads_source_keys (rec : record) (k : string) (v : json) :
  k ∉ SOURCE_KEYS ->
  flatten_record (<[k := v]> rec) = flatten_record rec
  /\ flatten_record (delete k rec) = flatten_record rec
  /\ "date" ∉ SOURCE_KEYS.
Proof.
  intros Hk. unfold SOURCE_KEYS in Hk.
  repeat (apply not_elem_of_cons in Hk as [? Hk]).
  split; [|split].
  - unfold flatten_record, dict_get. by rewrite !lookup_insert_ne by done.
  - unfold flatten_record, dict_get. by rewrite !lookup_delete_ne by done.
  - refine (bool_decide_unpack _ _). by vm_compute.
Qed.

(** X12. What a passthrough column shows in the CSV: the source text
    itself when the source field is a string, the empty cell when it is
    absent or falsy, and [str] of the value when it is a truthy value of
    another JSON type. *)
Theorem passthrough_cell_text (rec : record) (r : row) (i : nat) (col src : string) :
  flatten_record rec = Ok r ->
  CSV_FIELDS !! i = Some col ->
  (col, src) ∈ PASSTHROUGH ->
  row_cells r !! i
  = Some (match rec !! src with
          | Some (JStr s) => s
          | Some v => if truthy v then py_str v else []
          | None => []
          end).
Proof.
  intros (_ & _ & _ & Hpass & _)%flatten_record_lookup Hi Hin.
  unfold row_cells, dict_to_list.
  rewrite !list_lookup_fmap, Hi. simpl. rewrite (Hpass _ _ Hin). simpl.
  f_equal. unfold dict_get, py_or.
  destruct (rec !! src) as [v|]; [|done]. simpl.
  destruct v as [| [] | n | f | s | l | d]; simpl; try done.
  - by destruct (n =? 0).
  - by destruct f.
  - by destruct s.
  - by destruct l.
  - by destruct d.
Qed.

(** X13. The press URLs can be read back from the cell: when the list holds
    at least one string and no string holds a "|", splitting [press_urls]
    at "|" gives the strings of the list, in order. *)
Theorem press_urls_split_back (l : list json) :
  str_items l ≠ [] ->
  Forall (fun s => PIPE ∉ s) (str_items l) ->
  str_split PIPE (press_urls (JList l)) = str_items l.
Proof. intros Hne HF. by apply str_split_join. Qed.

End MoreRecord.

(** * The CSV text and the file *)

(** ** Writer against reader *)

Lemma csv_scan_comma t st cell row rows :
  st ≠ InQuoted ->
  csv_scan (COMMA :: t) st cell row rows
  = csv_scan t FieldStart [] (reverse cell :: row) rows.
Proof. by destruct st. Qed.

Lemma csv_scan_crlf t st cell row rows :
  st ≠ InQuoted ->
  csv_scan (CR :: LF :: t) st cell row rows
  = csv_scan t FieldStart [] [] (reverse (reverse cell :: row) :: rows).
Proof. by destruct st. Qed.

Lemma csv_special_false c :
  csv_special c = false -> c ≠ COMMA /\ c ≠ QUOTE /\ c ≠ CR /\ c ≠ LF.
Proof.
  unfold csv_special. rewrite !orb_false_iff, !N.eqb_neq. tauto.
Qed.

Lemma csv_scan_plain f rest st cell row rows :
  existsb csv_special f = false ->
  st = FieldStart \/ st = InUnquoted ->
  csv_scan (f ++ rest) st cell row rows
  = csv_scan rest (match f with [] => st | _ => InUnquoted end)
      (reverse f ++ cell) row rows.
Proof.
  revert st cell. induction f as [|c f IH]; intros st cell Hf Hst; [done|].
  simpl in Hf. apply orb_false_iff in Hf as [Hc Hf].
  apply csv_special_false in Hc as (H1 & H2 & H3 & H4).
  assert (csv_scan ((c :: f) ++ rest) st cell row rows
          = csv_scan (f ++ rest) InUnquoted (c :: cell) row rows) as ->.
  { simpl. rewrite !(proj2 (N.eqb_neq c _)) by done. by destruct Hst as [-> | ->]. }
  rewrite IH by auto. rewrite reverse_cons, <- app_assoc. by destruct f.
Qed.

Lemma csv_scan_quoted f rest cell row rows :
  csv_scan (csv_escape f ++ QUOTE :: rest) InQuoted cell row rows
  = csv_scan rest AfterQuote (reverse f ++ cell) row rows.
Proof.
  revert cell. induction f as [|c f IH]; intros cell; [done|].
  rewrite reverse_cons, <- app_assoc. simpl.
  destruct (c =? QUOTE)%N eqn:Hc.
  - apply N.eqb_eq in Hc as ->. simpl. by rewrite IH.
  - simpl. rewrite Hc. by rewrite IH.
Qed.

(** A written field, read from the start of a field, is read as itself;
    the reader is then in a state where a delimiter ends the field. *)
Lemma csv_scan_field f rest row rows :
  exists st,
    st ≠ InQuoted
    /\ csv_scan (csv_field f ++ rest) FieldStart [] row rows
       = csv_scan rest st (reverse f) row rows.
Proof.
  unfold csv_field. destruct (existsb csv_special f) eqn:Hf.
  - exists AfterQuote. split; [done|].
    change ((QUOTE :: csv_escape f ++ [QUOTE]) ++ rest)
      with (QUOTE :: (csv_escape f ++ [QUOTE]) ++ rest).
    rewrite <- app_assoc. simpl.
    by rewrite csv_scan_quoted, app_nil_r.
  - exists (match f with [] => FieldStart | _ => InUnquoted end).
    split; [by destruct f|].
    by rewrite csv_scan_plain, app_nil_r by auto.
Qed.

Lemma csv_scan_fields fs t row rows :
  fs ≠ [] ->
  csv_scan (str_join [COMMA] (map csv_field fs) ++ CR :: LF :: t) FieldStart [] row rows
  = csv_scan t FieldStart [] [] ((reverse row ++ fs) :: rows).
Proof.
  revert row. induction fs as [|f fs IH]; intros row Hne; [done|].
  destruct fs as [|g fs].
  - simpl. destruct (csv_scan_field f (CR :: LF :: t) row rows) as (st & Hst & ->).
    rewrite csv_scan_crlf by done.
    by rewrite reverse_involutive, reverse_cons.
  - assert (str_join [COMMA] (map csv_field (f :: g :: fs)) ++ CR :: LF :: t
            = csv_field f
              ++ COMMA :: (str_join [COMMA] (map csv_field (g :: fs)) ++ CR :: LF :: t))
      as -> by (simpl; by rewrite <- app_assoc).
    destruct (csv_scan_field f
                (COMMA :: (str_join [COMMA] (map csv_field (g :: fs)) ++ CR :: LF :: t))
                row rows) as (st & Hst & ->).
    rewrite csv_scan_comma by done. rewrite reverse_involutive.
    rewrite IH by done. by rewrite reverse_cons, <- app_assoc.
Qed.

Lemma csv_field_nil f : csv_field f = [] -> f = [].
Proof. unfold csv_field. by destruct (existsb csv_special f). Qed.

Lemma str_join_nil sep (fs : list pystr) :
  fs ≠ [] -> str_join [sep] fs = [] -> fs = [[]].
Proof.
  destruct fs as [|f [|g fs]]; [done| |].
  - simpl. by intros _ ->.
  - intros _ H. change (f ++ sep :: str_join [sep] (g :: fs) = []) in H.
    by destruct f.
Qed.

Lemma csv_scan_record fs t rows :
  fs ≠ [] ->
  csv_scan (csv_record fs ++ t) FieldStart [] [] rows
  = csv_scan t FieldStart [] [] (fs :: rows).
Proof.
  intros Hne. unfold csv_record.
  destruct (str_join [COMMA] (map csv_field fs)) as [|c line] eqn:E.
  - assert (map csv_field fs = [[]]) as Hm.
    { apply (str_join_nil COMMA); [by destruct fs | done]. }
    destruct fs as [|f [|g fs]]; try done.
    injection Hm as ->%csv_field_nil. reflexivity.
  - destruct fs as [|f fs]; [done|].
    rewrite <- E, <- app_assoc. simpl app at 2.
    by rewrite csv_scan_fields.
Qed.

Lemma csv_scan_records (rs : list (list pystr)) rows :
  Forall (fun fs => fs ≠ []) rs ->
  csv_scan (concat (map csv_record rs)) FieldStart [] [] rows
  = Some (reverse rows ++ rs).
Proof.
  intros H. revert rows. induction H as [|fs rs Hfs _ IH]; intros rows; simpl.
  - by rewrite app_nil_r.
  - rewrite csv_scan_record by done. rewrite IH, reverse_cons.
    by rewrite <- app_assoc.
Qed.

Section File.
Context `{RT : PyRuntime}.

Lemma row_cells_length (r : row) : length (row_cells r) = 14%nat.
Proof. reflexivity. Qed.

(** The text of a header and rows, as the writer produces it. *)
Lemma csv_text_records (rows : list row) :
  writeheader ++ concat (map writerow rows)
  = concat (map csv_record (header_cells :: map row_cells rows)).
Proof.
  unfold writeheader. cbn [map concat]. f_equal.
  induction rows as [|r rows IH]; [done|]. cbn [map concat]. by rewrite IH.
Qed.

Lemma csv_read_written (rows : list row) :
  csv_read (writeheader ++ concat (map writerow rows))
  = Some (header_cells :: map row_cells rows).
Proof.
  rewrite csv_text_records. apply (csv_scan_records _ []).
  constructor; [done|]. apply Forall_fmap, Forall_forall. intros r _ H.
  by apply (f_equal length) in H.
Qed.

(** X14. The CSV text can be read back: whatever the cells hold (commas,
    quotes, line breaks), a reader of comma-separated, quote-escaped records
    finds the header and then, for each row, its 14 cell texts. *)
Theorem csv_text_reads_back (rows : list row) :
  csv_read (writeheader ++ concat (map writerow rows))
  = Some (header_cells :: map row_cells rows)
  /\ Forall (fun cells => length cells = 14%nat) (header_cells :: map row_cells rows).
Proof.
  split.
  - rewrite csv_text_records. unfold csv_read.
    rewrite csv_scan_records; [done|].
    constructor; [done|]. apply Forall_fmap, Forall_forall. intros r _.
    intros H. by apply (f_equal length) in H.
  - constructor; [done|]. apply Forall_fmap, Forall_forall. by intros r _.
Qed.

Lemma file_write_inv file text file' r :
  file_write file text = (file', r) ->
  (r = Ok tt /\ file' = file ++ text /\ existsb is_surrogate text = false)
  \/ (r = Raise ValueError /\ file' = file /\ existsb is_surrogate text = true).
Proof.
  unfold file_write. destruct (existsb is_surrogate text); intros [= <- <-]; auto.
Qed.

Lemma write_rows_inv filtered file file' r :
  write_rows filtered file = (file', r) ->
  match r with
  | Ok _ =>
      exists rows,
        mapM flatten_record filtered = Ok rows
        /\ file' = file ++ concat (map writerow rows)
  | Raise e =>
      exists l1 rec l2 rows,
        filtered = l1 ++ rec :: l2
        /\ mapM flatten_record l1 = Ok rows
        /\ file' = file ++ concat (map writerow rows)
        /\ ((e = TypeError /\ flatten_record rec = Raise TypeError)
            \/ (e = ValueError
                /\ exists r, flatten_record rec = Ok r
                             /\ existsb is_surrogate (writerow r) = true))
  end.
Proof.
  revert file. induction filtered as [|rec rest IH]; intros file; simpl.
  - intros [= <- <-]. exists []. by rewrite app_nil_r.
  - destruct (flatten_record rec) as [row|e] eqn:Hrow.
    + destruct (file_write file (writerow row)) as [file1 [[]|e]] eqn:Hw.
      * apply file_write_inv in Hw as [(_ & -> & Hs)|(Hbad & _)]; [|done].
        intros Hrest. specialize (IH _ Hrest). destruct r as [[]|e].
        -- destruct IH as (rows & Hrows & ->).
           exists (row :: rows). simpl. rewrite Hrows. simpl.
           by rewrite <- app_assoc.
        -- destruct IH as (l1 & rec' & l2 & rows & -> & Hrows & -> & Hcause).
           exists (rec :: l1), rec', l2, (row :: rows). simpl.
           rewrite Hrow, Hrows. simpl. by rewrite <- app_assoc.
      * apply file_write_inv in Hw as [(Hbad & _)|(He & -> & Hs)]; [done|].
        injection He as ->. intros [= <- <-].
        exists [], rec, rest, []. simpl. rewrite app_nil_r.
        repeat split; try done. right. split; [done|]. by exists row.
    + intros [= <- <-]. exists [], rec, rest, []. simpl. rewrite app_nil_r.
      repeat split; try done. left.
      by destruct (flatten_record_Raise _ _ Hrow) as (-> & _).
Qed.

Lemma main_file_inv now days recs text r :
  main_file now days recs = Written text r ->
  exists filtered,
    main_filtered now days recs = Ok filtered
    /\ write_rows filtered writeheader = (text, r).
Proof.
  unfold main_file. destruct (main_filtered now days recs) as [filtered|e]; [|done].
  change (file_write [] writeheader) with (writeheader, Ok tt). cbv beta iota.
  destruct (write_rows filtered writeheader) as [file r'] eqn:Hw.
  intros [= <- <-]. by exists filtered.
Qed.

(** X15. When the run ends normally the file holds the header and one
    record per row of [main], in order, and reads back as those rows. *)
Theorem main_file_complete (now days : Z) (recs : list record) (text : pystr) :
  main_file now days recs = Written text (Ok tt) ->
  exists rows,
    main now days recs = Ok rows
    /\ text = writeheader ++ concat (map writerow rows)
    /\ csv_read text = Some (header_cells :: map row_cells rows).
Proof.
  intros (filtered & Hf & Hw)%main_file_inv.
  apply write_rows_inv in Hw as (rows & Hrows & ->).
  exists rows. split; [|split; [done|apply csv_read_written]].
  unfold main. by rewrite Hf.
Qed.

(** X16. When the run fails after the file was opened, the file holds the
    header and the rows of the records that came before the failing one in
    the sorted list, and still reads back as a CSV; the failure is the
    [TypeError] of [flatten_record] or the encoding error of a row that
    holds a surrogate code point. *)
Theorem main_file_truncated (now days : Z) (recs : list record) (text : pystr) (e : exn) :
  main_file now days recs = Written text (Raise e) ->
  exists l1 rec l2 rows,
    main_filtered now days recs = Ok (l1 ++ rec :: l2)
    /\ mapM flatten_record l1 = Ok rows
    /\ text = writeheader ++ concat (map writerow rows)
    /\ csv_read text = Some (header_cells :: map row_cells rows)
    /\ ((e = TypeError /\ flatten_record rec = Raise TypeError)
        \/ (e = ValueError
            /\ exists r, flatten_record rec = Ok r
                         /\ existsb is_surrogate (writerow r) = true)).
Proof.
  intros (filtered & Hf & Hw)%main_file_inv.
  apply write_rows_inv in Hw as (l1 & rec & l2 & rows & -> & Hrows & -> & Hcause).
  exists l1, rec, l2, rows. repeat split; try done. apply csv_read_written.
Qed.

Lemma write_rows_Ok (l : list record) :
  Forall (fun r => (exists row, flatten_record r = Ok row) /\ encodable r = true) l ->
  exists rows,
    mapM flatten_record l = Ok rows
    /\ forall file, write_rows l file = (file ++ concat (map writerow rows), Ok tt).
Proof.
  induction 1 as [|r l [[row Hrow] Henc] _ (rows & Hrows & IH)].
  - exists []. split; [done|]. intros file. simpl. by rewrite app_nil_r.
  - exists (row :: rows). simpl. rewrite Hrow, Hrows. split; [done|].
    intros file. unfold encodable in Henc. rewrite Hrow in Henc.
    apply negb_true_iff in Henc. unfold file_write. rewrite Henc.
    rewrite IH. by rewrite <- app_assoc.
Qed.

(** X5. On records of the shape the upstream API sends (country and
    reference field a string or falsy, [duplicates] falsy or with a length)
    whose rows hold no surrogate code point, and with the cutoff in range,
    neither the filter, the sort, [flatten_record] nor a write raises: the
    filter and sort return, and the write loop over their result ends
    normally, having added one CSV record per kept record to the file. *)
Theorem run_completes_on_api_shape (now days cutoff : Z) (recs : list record) :
  cutoff_of now days = Ok cutoff ->
  Forall (fun r =>
            text_or_falsy (dict_get r "country" JNull) = true
            /\ text_or_falsy (date_s r) = true
            /\ (truthy (dict_get r "duplicates" JNull) = false
                \/ has_len (dict_get r "duplicates" JNull) = true)
            /\ encodable r = true) recs ->
  exists out rows,
    main_filtered now days recs = Ok out
    /\ mapM flatten_record out = Ok rows
    /\ length rows = length out
    /\ forall file, write_rows out file = (file ++ concat (map writerow rows), Ok tt).
Proof.
  intros Hc HF.
  assert (Forall (fun r => is_Ok (keep cutoff r)) recs) as Hkeep.
  { eapply Forall_impl; [exact HF|]. intros r (? & ? & _). by apply keep_total. }
  pose proof (main_filtered_Ok _ _ _ _ Hc Hkeep) as Hout.
  eexists. destruct (write_rows_Ok
    (map snd (sort_keyed (decorate (filter (fun r => kept cutoff r = true) recs)))))
    as (rows & Hrows & Hw).
  - apply Forall_forall. intros r Hin.
    apply list_elem_of_fmap in Hin as ([k r'] & -> & Hin).
    rewrite sort_keyed_perm in Hin.
    apply list_elem_of_fmap in Hin as (r'' & [= -> ->] & Hin).
    apply list_elem_of_filter in Hin as [_ Hin].
    rewrite Forall_forall in HF. destruct (HF _ Hin) as (_ & _ & Hdup & Henc).
    split; [by apply flatten_record_total | done].
  - exists rows. split; [exact Hout|]. split; [done|]. split; [|done].
    by eapply mapM_length.
Qed.

End File.

(** ** The output path *)

Lemma str_split_app_sep_any sep a b :
  str_split sep (a ++ sep :: b) = str_split sep a ++ str_split sep b.
Proof.
  induction a as [|c a IH]; simpl.
  - by rewrite N.eqb_refl.
  - rewrite IH. destruct (c =? sep)%N; [done|].
    destruct (str_split sep a) eqn:E; [|done].
    by apply str_split_nonempty in E.
Qed.

Lemma str_startswith_app a b c :
  a ≠ [] -> str_startswith (a ++ b) [c] = str_startswith a [c].
Proof. by destruct a. Qed.

Lemma path_components_app_sep a b :
  path_components (a ++ SLASH :: b) = path_components a ++ path_components b.
Proof. unfold path_components. by rewrite str_split_app_sep_any, filter_app. Qed.

Lemma path_components_snoc_sep a : path_components (a ++ [SLASH]) = path_components a.
Proof.
  rewrite path_components_app_sep. unfold path_components at 2. simpl.
  rewrite filter_cons_False by (intros H; by apply H).
  by rewrite filter_nil, app_nil_r.
Qed.

Lemma chosen_name_relative date_str :
  str_startswith (chosen_name None date_str) (lit "/") = false.
Proof. reflexivity. Qed.

Lemma out_path_chosen out_dir out date_str :
  out_path out_dir out date_str = path_join out_dir (chosen_name out date_str).
Proof. by destruct out as [[|c name]|]. Qed.

(** X18. Where the file goes, on a POSIX system.  The name joined to the
    output directory is the explicit one when given and not empty, else
    "ransom_live_pull_<date>.csv".  A name that starts with "/" is the path
    itself, whatever the output directory.  Otherwise the components of the
    path are those of the output directory followed by those of the name,
    and the path is absolute exactly when the output directory is. *)
Theorem out_path_components (out_dir date_str : pystr) (out : option pystr) :
  (str_startswith (chosen_name out date_str) (lit "/") = true ->
     out_path out_dir out date_str = chosen_name out date_str)
  /\ (str_startswith (chosen_name out date_str) (lit "/") = false ->
        path_components (out_path out_dir out date_str)
        = path_components out_dir ++ path_components (chosen_name out date_str)
        /\ str_startswith (out_path out_dir out date_str) (lit "/")
           = str_startswith out_dir (lit "/"))
  /\ chosen_name (Some []) date_str = chosen_name None date_str
  /\ str_startswith (chosen_name None date_str) (lit "/") = false.
Proof.
  rewrite out_path_chosen. set (name := chosen_name out date_str).
  split; [|split; [|split; [done | apply chosen_name_relative]]].
  - intros Hs. unfold path_join. by rewrite Hs.
  - intros Hs. unfold path_join. rewrite Hs.
    destruct out_dir as [|c dir _] using rev_ind.
    { simpl. split; [done|]. by rewrite Hs. }
    assert (dir ++ [c] ≠ []) as Hne by (by destruct dir).
    rewrite bool_decide_eq_false_2 by done. cbn [orb].
    change (lit "/") with [SLASH]. rewrite str_endswith_snoc.
    case_bool_decide as Hc.
    + subst c. split; [|by apply str_startswith_app].
      rewrite path_components_snoc_sep, <- app_assoc. apply path_components_app_sep.
    + split; [|by apply str_startswith_app].
      exact (path_components_app_sep (dir ++ [c]) name).
Qed.

(** ** The further properties at concrete records *)

Lemma wider_window_keeps_more_witness :
  r_jan3 ∈ [r_jan1; r_jan3] /\ (length [r_jan3] <= length [r_jan1; r_jan3])%nat.
Proof.
  destruct (wider_window_keeps_more (RT := ref_runtime) JAN_4 2 3650
              [r_jan3; r_jan1] [r_jan3] [r_jan1; r_jan3]
              ltac:(lia) eq_refl eq_refl) as [Hin Hlen].
  split; [apply Hin; by left | exact Hlen].
Defined.

Lemma kept_record_key_witness :
  sort_key (RT := ref_runtime) r_date_only = Ok DATETIME_MAX
  /\ sort_key (RT := ref_runtime) r_jan3 = Ok (JAN_2 + US_PER_DAY).
Proof.
  split.
  - apply (proj2 (kept_record_key (RT := ref_runtime) JAN_1 r_date_only eq_refl) eq_refl).
  - destruct (proj1 (kept_record_key (RT := ref_runtime) JAN_1 r_jan3 eq_refl) eq_refl)
      as (dt & Hdt & Hkey & _).
    rewrite Hkey. f_equal. assert (Some dt = Some (JAN_2 + US_PER_DAY)) as [= ->]; [|done].
    assert (Ok (Some dt) = Ok (Some (JAN_2 + US_PER_DAY))) as [= ->]; [|done].
    rewrite <- Hdt. reflexivity.
Defined.

Lemma main_rows_in_order_witness :
  exists rows,
    main (RT := ref_runtime) JAN_4 3650 [r_jan3; r_jan1] = Ok rows
    /\ (length rows <= 2)%nat.
Proof.
  assert (returned (main (RT := ref_runtime) JAN_4 3650 [r_jan3; r_jan1]) = true)
    as Hok by (by vm_compute).
  destruct (main (RT := ref_runtime) JAN_4 3650 [r_jan3; r_jan1]) as [rows|e] eqn:E;
    [|discriminate Hok].
  exists rows. split; [reflexivity|].
  by destruct (main_rows_in_order (RT := ref_runtime) _ _ _ _ E) as (out & _ & _ & Hlen).
Defined.

Lemma main_failure_causes_witness :
  exists r, r ∈ [r_jan1; r_bad_duplicates]
            /\ flatten_record (RT := ref_runtime) r = Raise TypeError.
Proof.
  destruct (main_failure_causes (RT := ref_runtime) JAN_4 3650
              [r_jan1; r_bad_duplicates] TypeError ltac:(by vm_compute))
    as [[Hbad _]|[[Hbad _]|(_ & cutoff & r & _ & Hin & _ & Hr & _)]];
    [discriminate Hbad | discriminate Hbad | by exists r].
Defined.

Lemma sort_keeps_sorted_witness :
  sort_records (RT := ref_runtime) [r_jan1; r_jan3; r_date_only]
  = Ok [r_jan1; r_jan3; r_date_only].
Proof.
  apply (proj1 (sort_keeps_sorted (RT := ref_runtime) [r_jan1; r_jan3; r_date_only]
                  ltac:(repeat constructor; eexists; reflexivity))).
  repeat constructor; by vm_compute.
Defined.

Lemma parse_date_ignores_padding_witness :
  parse_date (RT := ref_runtime) (JStr ([160; 32]%N ++ lit "2025-01-01" ++ [10; 8232]%N))
  = parse_date (RT := ref_runtime) (JStr (lit "2025-01-01")).
Proof.
  apply (parse_date_ignores_padding (RT := ref_runtime) [160; 32]%N (lit "2025-01-01")
           [10; 8232]%N eq_refl eq_refl).
Defined.

Lemma flatten_reads_source_keys_witness :
  flatten_record (RT := ref_runtime) (<["date" := JStr (lit "2025-01-02")]> r_jan1)
  = flatten_record (RT := ref_runtime) r_jan1.
Proof.
  apply (proj1 (flatten_reads_source_keys (RT := ref_runtime) r_jan1 "date"
                  (JStr (lit "2025-01-02"))
                  ltac:(refine (bool_decide_unpack _ _); by vm_compute))).
Defined.

Lemma passthrough_cell_text_witness :
  exists r,
    flatten_record (RT := ref_runtime) {[ "victim" := JInt 7 ]} = Ok r
    /\ row_cells (RT := ref_runtime) r !! 1%nat = Some (lit "7").
Proof.
  destruct (flatten_record_total (RT := ref_runtime) {[ "victim" := JInt 7 ]})
    as [r E]; [by left; vm_compute|].
  exists r. split; [exact E|].
  rewrite (passthrough_cell_text (RT := ref_runtime) _ r 1 "victim" "victim" E eq_refl
             ltac:(by apply list_elem_of_here)).
  by vm_compute.
Defined.

Lemma press_urls_split_back_witness :
  str_split PIPE
    (press_urls (RT := ref_runtime)
       (JList [JStr (lit "http://a"); JInt 1; JStr (lit "http://b")]))
  = [lit "http://a"; lit "http://b"].
Proof.
  apply (press_urls_split_back (RT := ref_runtime)
           [JStr (lit "http://a"); JInt 1; JStr (lit "http://b")]).
  - discriminate.
  - repeat constructor; refine (bool_decide_unpack _ _); by vm_compute.
Defined.

Lemma main_file_complete_witness :
  exists text rows,
    main_file (RT := ref_runtime) JAN_4 3650 [r_jan3; r_jan1] = Written text (Ok tt)
    /\ csv_read text = Some (header_cells :: map (row_cells (RT := ref_runtime)) rows)
    /\ length rows = 2%nat.
Proof.
  assert (match main_file (RT := ref_runtime) JAN_4 3650 [r_jan3; r_jan1] with
          | Written _ (Ok _) => true
          | _ => false
          end = true) as Hok by (by vm_compute).
  destruct (main_file (RT := ref_runtime) JAN_4 3650 [r_jan3; r_jan1])
    as [e|text [[]|e]] eqn:E; try discriminate Hok.
  destruct (main_file_complete (RT := ref_runtime) _ _ _ _ E) as (rows & Hrows & _ & Hread).
  exists text, rows. split; [reflexivity|]. split; [exact Hread|].
  assert (length rows = length [r_jan1; r_jan3]) as ->; [|done].
  unfold main in Hrows.
  change (main_filtered (RT := ref_runtime) JAN_4 3650 [r_jan3; r_jan1])
    with (Ok (A := list record) [r_jan1; r_jan3]) in Hrows.
  by apply mapM_length in Hrows.
Defined.

Lemma main_file_truncated_witness :
  exists text rows,
    main_file (RT := ref_runtime) JAN_4 3650 [r_bad_duplicates; r_jan1]
    = Written text (Raise TypeError)
    /\ csv_read text = Some (header_cells :: map (row_cells (RT := ref_runtime)) rows).
Proof.
  assert (match main_file (RT := ref_runtime) JAN_4 3650 [r_bad_duplicates; r_jan1] with
          | Written _ (Raise TypeError) => true
          | _ => false
          end = true) as Hok by (by vm_compute).
  destruct (main_file (RT := ref_runtime) JAN_4 3650 [r_bad_duplicates; r_jan1])
    as [e|text [[]|[]]] eqn:E; try discriminate Hok.
  destruct (main_file_truncated (RT := ref_runtime) _ _ _ _ _ E)
    as (l1 & rec & l2 & rows & _ & _ & _ & Hread & _).
  by exists text, rows.
Defined.

Lemma input_order_irrelevant_witness :
  exists out',
    main_filtered (RT := ref_runtime) JAN_4 3650 [r_jan1; r_jan3] = Ok out'
    /\ [r_jan1; r_jan3] ≡ₚ out'.
Proof.
  apply (proj2 (input_order_irrelevant (RT := ref_runtime) JAN_4 3650
                  [r_jan3; r_jan1] [r_jan1; r_jan3] (Permutation_swap _ _ _))
           [r_jan1; r_jan3] eq_refl).
Defined.

Lemma rerun_on_output_witness :
  main_filtered (RT := ref_runtime) JAN_4 3650 [r_jan1; r_jan3] = Ok [r_jan1; r_jan3].
Proof.
  apply (rerun_on_output (RT := ref_runtime) JAN_4 3650 [r_jan3; r_jan1] [r_jan1; r_jan3]
           eq_refl).
Defined.

Lemma run_completes_on_api_shape_witness :
  exists out rows,
    main_filtered (RT := ref_runtime) JAN_4 3650 [r_jan3; r_date_only] = Ok out
    /\ mapM (flatten_record (RT := ref_runtime)) out = Ok rows
    /\ length rows = length out
    /\ forall file,
         write_rows (RT := ref_runtime) out file
         = (file ++ concat (map (writerow (RT := ref_runtime)) rows), Ok tt).
Proof.
  apply (run_completes_on_api_shape (RT := ref_runtime) JAN_4 3650
           (JAN_4 - 3650 * US_PER_DAY) [r_jan3; r_date_only] eq_refl).
  repeat constructor; by vm_compute.
Defined.

Lemma out_path_components_witness :
  path_components (out_path (lit "data/pulls") None (lit "2024-01-04"))
  = [lit "data"; lit "pulls"; lit "ransom_live_pull_2024-01-04.csv"]
  /\ out_path (lit "data") (Some (lit "/tmp/x.csv")) (lit "2024-01-04") = lit "/tmp/x.csv".
Proof.
  destruct (out_path_components (lit "data/pulls") (lit "2024-01-04") None)
    as (_ & Hrel & _).
  destruct (out_path_components (lit "data") (lit "2024-01-04") (Some (lit "/tmp/x.csv")))
    as (Habs & _).
  split.
  - destruct (Hrel eq_refl) as [-> _]. reflexivity.
  - exact (Habs eq_refl).
Defined.
